(** * Blackjack participant: decision engine, draws and settlement

    A shallow embedding of [module/classes/participant.py] (class
    [participant]) and of the constants it reads from [module.settings].

    - Python integers are [Z]; Python floats are IEEE binary64 values,
      represented by [spec_float] with [prec = 53] and [emax = 1024].
    - Exceptions are an error value: an operation returns [Ret v] or
      [Raise e].  Loops carry fuel and return [Timeout] when it runs out.
    - The list of per-rank counts is a Python list object, passed by
      reference; lists live in a store indexed by locations and [hit]
      allocates the copy it returns.
    - [np.random.choice] is modelled by its result: the drawn index is an
      argument of [hit], and [sampled] says which indices can be drawn. *)

From Stdlib Require Import ZArith List Bool Lia.
From Stdlib Require Import Floats.SpecFloat.
From stdpp Require Import base option list gmap strings.

Open Scope Z_scope.

(** ** Exceptions and outcomes *)

Inductive exn :=
| ZeroDivisionError
| OverflowError
| ValueError
| IndexError
| KeyError
| AttributeError
| TypeError.

Inductive outcome (A : Type) :=
| Ret (a : A)
| Raise (e : exn)
| Timeout.
Arguments Ret {A} a.
Arguments Raise {A} e.
Arguments Timeout {A}.

#[global] Instance outcome_ret : MRet outcome := fun A a => Ret a.
#[global] Instance outcome_bind : MBind outcome := fun A B f m =>
  match m with
  | Ret a => f a
  | Raise e => Raise e
  | Timeout => Timeout
  end.

(** The store of list objects and computations that read and extend it. *)
Abbreviation loc := positive.
Abbreviation heap := (gmap positive (list Z)).

Definition M (A : Type) : Type := heap -> outcome A * heap.

#[global] Instance M_ret : MRet M := fun A a h => (Ret a, h).
#[global] Instance M_bind : MBind M := fun A B f m h =>
  match m h with
  | (Ret a, h') => f a h'
  | (Raise e, h') => (Raise e, h')
  | (Timeout, h') => (Timeout, h')
  end.

#[global] Instance outcome_fmap : FMap outcome := fun A B f m =>
  match m with
  | Ret a => Ret (f a)
  | Raise e => Raise e
  | Timeout => Timeout
  end.

Definition lift {A} (o : outcome A) : M A := fun h => (o, h).

(** ** Python numbers *)
Module PyNum.

Definition prec : Z := 53.
Definition emax : Z := 1024.

(** A Python number: an [int] or a [float]. *)
Inductive num :=
| PInt (z : Z)
| PFloat (f : spec_float).

(** [float(z)] as done by mixed arithmetic: the nearest double, ties to
    even; an integer beyond the largest double raises. *)
Definition float_of_int (z : Z) : outcome spec_float :=
  match binary_normalize prec emax z 0 false with
  | S754_infinity _ => Raise OverflowError
  | f => Ret f
  end.

(** [a / b] on two ints: the correctly rounded quotient. *)
Definition int_truediv (a b : Z) : outcome spec_float :=
  if b =? 0 then Raise ZeroDivisionError
  else
    let s := xorb (a <? 0) (b <? 0) in
    if a =? 0 then Ret (S754_zero s)
    else
      let '(q, e, l) := SFdiv_core_binary prec emax (Z.abs a) 0 (Z.abs b) 0 in
      match binary_round_aux prec emax s q e l with
      | S754_infinity _ => Raise OverflowError
      | f => Ret f
      end.

(** The exact value of a finite double is [m * 2^e]; comparing it with
    an integer needs no rounding. *)
Definition SFcompare_int (f : spec_float) (z : Z) : option comparison :=
  match f with
  | S754_nan => None
  | S754_infinity s => Some (if s then Lt else Gt)
  | S754_zero _ => Some (0 ?= z)
  | S754_finite s m e =>
      let v := if s then Z.neg m else Z.pos m in
      Some (if 0 <=? e then (v * 2 ^ e ?= z) else (v ?= z * 2 ^ (- e)))
  end.

Definition num_compare (x y : num) : option comparison :=
  match x, y with
  | PInt a, PInt b => Some (a ?= b)
  | PFloat f, PFloat g => SFcompare f g
  | PFloat f, PInt b => SFcompare_int f b
  | PInt a, PFloat g => CompOpp <$> SFcompare_int g a
  end.

(** [x < y] and [x >= y]; both are false when a NaN is involved. *)
Definition num_ltb (x y : num) : bool :=
  match num_compare x y with Some Lt => true | _ => false end.
Definition num_geb (x y : num) : bool :=
  match num_compare x y with Some (Gt | Eq) => true | _ => false end.

Definition num_neg (x : num) : num :=
match x with
| PInt a => PInt (- a)
| PFloat f => PFloat (SFopp f)
end.

(** Mixed arithmetic converts an int operand to a float first. *)
Definition to_float (x : num) : outcome spec_float :=
match x with
| PInt a => float_of_int a
| PFloat f => Ret f
end.

(** [x * y] *)
Definition num_mul (x y : num) : outcome num :=
match x, y with
| PInt a, PInt b => Ret (PInt (a * b))
| _, _ => f ← to_float x; g ← to_float y; Ret (PFloat (SFmul prec emax f g))
end.

(** [x - y] *)
Definition num_sub (x y : num) : outcome num :=
match x, y with
| PInt a, PInt b => Ret (PInt (a - b))
| _, _ => f ← to_float x; g ← to_float y; Ret (PFloat (SFsub prec emax f g))
end.

Definition is_zero (f : spec_float) : bool :=
match f with
| S754_zero _ => true
| _ => false
end.

(** [x / y] *)
Definition num_truediv (x y : num) : outcome num :=
match x, y with
| PInt a, PInt b => PFloat <$> int_truediv a b
| _, _ =>
    f ← to_float x; g ← to_float y;
    if is_zero g then Raise ZeroDivisionError
    else Ret (PFloat (SFdiv prec emax f g))
end.

(** [max(x, y)]: the builtin keeps its first argument unless the second
    is greater. *)
Definition num_max (x y : num) : num :=
if num_ltb x y then y else x.

(** Zeros and finite doubles, as opposed to infinities and NaN. *)
Definition is_number (f : spec_float) : Prop :=
match f with
| S754_zero _ | S754_finite _ _ _ => True
| _ => False
end.

(** The literal [1.5]. *)
Definition one_and_half : spec_float := S754_finite false 6755399441055744 (-52).

End PyNum.
Import PyNum.

(** ** Store operations *)

(** Reading a list through a reference; a reference to no list is a
    caller passing something that is not a list. *)
Definition load (l : loc) : M (list Z) := fun h =>
  match h !! l with
  | Some v => (Ret v, h)
  | None => (Raise TypeError, h)
  end.

(** A new list object, at a location not in use. *)
Definition alloc (v : list Z) : M loc := fun h =>
  let l := fresh (dom h) in (Ret l, <[l := v]> h).

(** Assignment to the elements of an existing list object. *)
Definition store (l : loc) (v : list Z) : M unit := fun h =>
  (Ret tt, <[l := v]> h).

(** [xs[i]] for a nonnegative index. *)
Definition py_index {A} (xs : list A) (i : nat) : outcome A :=
  match xs !! i with
  | Some x => Ret x
  | None => Raise IndexError
  end.

(** The builtin [sum] on a list of ints. *)
Definition py_sum (xs : list Z) : Z := foldr Z.add 0 xs.

(** [np.max] on a list of ints. *)
Definition np_max (xs : list Z) : outcome Z :=
  match xs with
  | [] => Raise ValueError
  | x :: rest => Ret (fold_left Z.max rest x)
  end.

(** ** Constants of [module.settings]

    The settings module is not among the sources, so its constants are
    parameters: the minimum bet [MIN_BET], the per-deck constant
    [N_CARD_EACH_DECK], the rank names [CARDS], the face value of each
    rank [VALUE] (an int, or a list of ints for a rank with several
    values) and the counting weight of each rank [CARDS_COUNT].  The
    numeric constants are taken to be ints. *)

Inductive face :=
| Scalar (v : Z)
| Multi (vs : list Z).

Record settings := {
  MIN_BET : Z;
  N_CARD_EACH_DECK : Z;
  CARDS : list string;
  VALUE : list face;
  CARDS_COUNT : list Z
}.

(** ** Strategy tables

    A table read from a csv file: a cell is addressed by a column, either
    the default column ['Value'] or the column named by the dealer's
    value, and by a row, the hand value.  A missing cell is a [KeyError]. *)

Inductive column :=
| ColValue
| ColDealer (v : Z).

Definition table : Type := column -> Z -> option string.

(** ** The participant *)

Record participant := {
  ptype : string;
  soft_strategy : option table;
  hard_strategy : option table;
  cards : list string;
  possible : list Z;
  value : Z;
  bet : num;
  active : bool;
  bust : bool;
  runV : list Z;
  runW : list num
}.

Definition reset (self : participant) (running : bool) : participant :=
  {| ptype := ptype self;
     soft_strategy := soft_strategy self;
     hard_strategy := hard_strategy self;
     cards := [];
     possible := [0];
     value := 0;
     bet := PInt 0;
     active := true;
     bust := false;
     runV := if running then [] else runV self;
     runW := if running then [] else runW self |}.

(** [participant(ptype)]: no strategy is set yet. *)
Definition init (pt : string) : participant :=
  reset {| ptype := pt; soft_strategy := None; hard_strategy := None;
           cards := []; possible := []; value := 0; bet := PInt 0;
           active := true; bust := false; runV := []; runW := [] |} true.

Definition with_bet (self : participant) (b : num) : participant :=
  {| ptype := ptype self;
     soft_strategy := soft_strategy self;
     hard_strategy := hard_strategy self;
     cards := cards self;
     possible := possible self;
     value := value self;
     bet := b;
     active := active self;
     bust := bust self;
     runV := runV self;
     runW := runW self |}.

Definition set_bet (cfg : settings) (self : participant) (b : option num) : participant :=
  match b with
  | None => with_bet self (PInt (MIN_BET cfg))
  | Some b => with_bet self b
  end.

(** Line 129. *)
Definition true_count (cfg : settings) (count : Z) (num_cards : list Z) : outcome num :=
  q ← num_truediv (PInt count) (PInt (py_sum num_cards));
  t ← num_mul q (PInt (N_CARD_EACH_DECK cfg));
  num_mul t (PInt (Z.of_nat (length (CARDS cfg)))).

(** Line 130. *)
Definition bet_value (cfg : settings) (count : Z) (num_cards : list Z) : outcome num :=
  tc ← true_count cfg count num_cards;
  d ← num_sub tc (PInt 1);
  x ← num_mul d (PInt (MIN_BET cfg));
  Ret (num_max x (PInt 0)).

Definition set_bet_counting (cfg : settings) (self : participant)
    (count : Z) (num_cards : list Z) : outcome participant :=
  bv ← bet_value cfg count num_cards;
  if num_ltb bv (PInt (MIN_BET cfg)) then Ret (set_bet cfg self (Some (PInt 0)))
  else Ret (set_bet cfg self (Some bv)).

Definition is_dealer (self : participant) : bool := String.eqb (ptype self) "d".

Definition check_bust (self : participant) (val1 val2 : Z) : bool :=
  let dealer_stdoff := if is_dealer self then 1 else 0 in
  val1 + val2 <=? 21 + dealer_stdoff.

(** The probability vector of line 176: the quotients of the counts by
    their total, computed in turn, so that the first division that fails
    decides the exception. *)
Fixpoint quotients (total : Z) (nums : list Z) : outcome (list spec_float) :=
  match nums with
  | [] => Ret []
  | c :: rest =>
      q ← int_truediv c total;
      qs ← quotients total rest;
      Ret (q :: qs)
  end.

(** Lines 176 and 177 up to the draw: the probability vector and the
    checks [np.random.choice] makes on it.  There has to be at least one
    rank, one probability per rank, and no probability below 0, which a
    [-0.0] is not.  The check that the probabilities add up to one is left
    out: the quotients add up to one before rounding, and rounding moves
    the sum by far less than the tolerance of the check. *)
Definition choice_check (cfg : settings) (nums : list Z) : outcome unit :=
  prob ← quotients (py_sum nums) nums;
  if (length (CARDS cfg) =? 0)%nat
     || negb (length prob =? length (CARDS cfg))%nat
     || existsb (fun q => SFltb q (S754_zero false)) prob
  then Raise ValueError
  else Ret tt.

(** The indices [np.random.choice] can return: only those of a count
    whose quotient by the total is positive. *)
Definition sampled (nums : list Z) (index : nat) : Prop :=
  exists c, nums !! index = Some c /\ 0 < c * py_sum nums.

(** The totals that survive the draw of a card of face value [v]. *)
Definition new_possible (self : participant) (v : face) : list Z :=
  match v with
  | Multi vs =>
      val1 ← possible self; val2 ← vs;
      if check_bust self val1 val2 then [val1 + val2] else []
  | Scalar v =>
      val1 ← possible self;
      if check_bust self val1 v then [val1 + v] else []
  end.

Definition hit (cfg : settings) (self : participant) (num_cards : loc) (count : Z)
    (double : bool) (index : nat) : M (participant * (loc * Z)) :=
  nums ← load num_cards;
  _ ← lift (choice_check cfg nums);
  card ← lift (py_index (CARDS cfg) index);
  v ← lift (py_index (VALUE cfg) index);
  updated_num_cards ← alloc nums;
  c ← lift (py_index nums index);
  _ ← store updated_num_cards (<[index := c - 1]> nums);
  w ← lift (py_index (CARDS_COUNT cfg) index);
  let updated_count := count + w in
  let poss := new_possible self v in
  let bust' := if (length poss =? 0)%nat then true else bust self in
  let poss' := remove_dups poss in
  value' ← lift (if bust' then Ret 0 else np_max poss');
  bet' ← lift (if double then num_mul (bet self) (PInt 2) else Ret (bet self));
  let self' :=
    {| ptype := ptype self;
       soft_strategy := soft_strategy self;
       hard_strategy := hard_strategy self;
       cards := cards self ++ [card];
       possible := poss';
       value := value';
       bet := bet';
       active := if double then false else active self;
       bust := bust';
       runV := runV self;
       runW := runW self |} in
  mret (self', (updated_num_cards, updated_count)).

(** One strategy lookup of the loop of [play_strategy]. *)
Definition lookup_action (self : participant) (dealer : option participant) : outcome string :=
  let strategy := if (1 <? length (possible self))%nat then soft_strategy self
                  else hard_strategy self in
  match strategy with
  | None => Raise AttributeError
  | Some t =>
      let col := match dealer with
                 | None => ColValue
                 | Some d => ColDealer (value d)
                 end in
      match t col (value self) with
      | Some a => Ret a
      | None => Raise KeyError
      end
  end.

(** The [while] loop of [play_strategy]; [draws] gives the index drawn by
    each successive [hit]. *)
Fixpoint play_loop (cfg : settings) (fuel : nat) (draws : nat -> nat)
    (self : participant) (action : string) (updated_num_cards : loc) (updated_count : Z)
    (dealer : option participant) : M (participant * (loc * Z)) :=
  if negb (String.eqb action "S") && negb (bust self) && active self then
    match fuel with
    | O => lift Timeout
    | S fuel' =>
        action' ← lift (lookup_action self dealer);
        if String.eqb action' "H" then
          r ← hit cfg self updated_num_cards updated_count false (draws O);
          play_loop cfg fuel' (fun i => draws (S i)) r.1 action' r.2.1 r.2.2 dealer
        else if String.eqb action' "D" then
          r ← hit cfg self updated_num_cards updated_count true (draws O);
          play_loop cfg fuel' (fun i => draws (S i)) r.1 action' r.2.1 r.2.2 dealer
        else
          play_loop cfg fuel' draws self action' updated_num_cards updated_count dealer
    end
  else mret (self, (updated_num_cards, updated_count)).

Definition play_strategy (cfg : settings) (fuel : nat) (draws : nat -> nat)
    (self : participant) (num_cards : loc) (count : Z)
    (dealer : option participant) : M (participant * (loc * Z)) :=
  nums ← load num_cards;
  updated_num_cards ← alloc nums;
  play_loop cfg fuel draws self "" updated_num_cards count dealer.

(** The value of [final_result] at line 269. *)
Definition final_result (self dealer : participant) : Z :=
  let r := 0 in
  let r := if bust self then -1 else if bust dealer then 1 else r in
  let r := if (length (cards self) =? 2)%nat && (value self =? 21) then 2
           else if (value self =? 21) || (5 <=? length (cards self))%nat then 1
           else r in
  let r := if value dealer =? 22 then 0 else r in
  let r := if value self <? value dealer then -1
           else if value dealer <? value self then 1
           else r in
  r.

(** What [result] appends to [runW]. *)
Definition winnings (r : Z) (b : num) : outcome (list num) :=
  if r =? 0 then Ret [PInt 0]
  else if r =? -1 then Ret [num_neg b]
  else if r =? 1 then Ret [b]
  else if r =? 2 then w ← num_mul b (PFloat one_and_half); Ret [w]
  else Ret [].

(** The participant a settlement that returns leaves.  The only step that
    can raise is the product [bet * 1.5] of line 274; the value has then
    been appended to [runV] already, see [value_recorded] below. *)
Definition result (self dealer : participant) : outcome participant :=
  let r := final_result self dealer in
  w ← winnings r (bet self);
  Ret (reset {| ptype := ptype self;
                soft_strategy := soft_strategy self;
                hard_strategy := hard_strategy self;
                cards := cards self;
                possible := possible self;
                value := value self;
                bet := bet self;
                active := active self;
                bust := bust self;
                runV := runV self ++ [value self];
                runW := runW self ++ w |} false).

(** ** The rules of the specification, in its words *)

(** The four verdicts of the outcome resolver and their codes. *)
Inductive verdict :=
| Loss
| Push
| Win
| Blackjack.

Definition verdict_code (v : verdict) : Z :=
  match v with
  | Loss => -1
  | Push => 0
  | Win => 1
  | Blackjack => 2
  end.

(** A rule looks at the two hands and either gives a verdict or does not
    apply. *)
Definition rule : Type := participant -> participant -> option verdict.

(** Rule 2: participant busts, loss; else dealer busts, win. *)
Definition rule_bust : rule := fun p d =>
  if bust p then Some Loss else if bust d then Some Win else None.

(** Rule 3: exactly 2 cards and value 21, blackjack; else value 21 or at
    least 5 cards, win. *)
Definition rule_blackjack : rule := fun p d =>
  if bool_decide (length (cards p) = 2%nat /\ value p = 21) then Some Blackjack
  else if bool_decide (value p = 21 \/ (5 <= length (cards p))%nat) then Some Win
  else None.

(** Rule 4: dealer value 22, push. *)
Definition rule_standoff : rule := fun p d =>
  if bool_decide (value d = 22) then Some Push else None.

(** Rule 5: dealer value greater, loss; smaller, win; equal, no verdict. *)
Definition rule_compare : rule := fun p d =>
  if bool_decide (value d > value p) then Some Loss
  else if bool_decide (value d < value p) then Some Win
  else None.

(** Rules are applied in order, a later rule that applies overriding what
    was decided before; rule 1 is the starting verdict, push. *)
Definition apply_rules (rules : list rule) (start : verdict) (p d : participant) : verdict :=
  fold_left (fun acc r => default acc (r p d)) rules start.

Definition resolve (p d : participant) : verdict :=
  apply_rules [rule_bust; rule_blackjack; rule_standoff; rule_compare] Push p d.

(** Payout: loss records [-bet], push [0], win [+bet], blackjack
    [1.5 * bet]. *)
Definition payout (v : verdict) (b : num) : outcome num :=
  match v with
  | Loss => Ret (num_neg b)
  | Push => Ret (PInt 0)
  | Win => Ret b
  | Blackjack => num_mul b (PFloat one_and_half)
  end.

(** The bet sizing policy of the counting mode, with the names of the
    specification. *)
Definition trueCount (runningCount totalRemainingCards cardsPerDeck distinctRankCount : Z)
    : outcome num :=
  a ← num_truediv (PInt runningCount) (PInt totalRemainingCards);
  b ← num_mul a (PInt cardsPerDeck);
  num_mul b (PInt distinctRankCount).

Definition betValue (minimumBet : Z) (tc : num) : outcome num :=
  a ← num_sub tc (PInt 1);
  b ← num_mul a (PInt minimumBet);
  Ret (num_max b (PInt 0)).

(** The policy for a running count and a deck total. *)
Definition policy (cfg : settings) (runningCount totalRemainingCards : Z) : outcome num :=
  tc ← trueCount runningCount totalRemainingCards (N_CARD_EACH_DECK cfg)
       (Z.of_nat (length (CARDS cfg)));
  betValue (MIN_BET cfg) tc.

(** An outcome that is a value or an [OverflowError]. *)
Definition overflow_only {A} (o : outcome A) : Prop :=
  match o with
  | Ret _ => True
  | Raise e => e = OverflowError
  | Timeout => False
  end.

(** The double nearest to 54.08. *)
Definition f54_08 : spec_float := S754_finite false 7611083370256138 (-47).

(** ** Sample constants and hands *)

(** Modelled from the spec: the constants of [module.settings], which is
    not among the sources.  Thirteen ranks, the ace worth 1 or 11 and 52
    cards per deck are the figures of the specification; the minimum bet
    of 10 and the Hi-Lo weights are sample values.  Used to run the
    definitions on concrete rounds. *)
Definition sample_settings : settings :=
  {| MIN_BET := 10;
     N_CARD_EACH_DECK := 52;
     CARDS := ["A"; "2"; "3"; "4"; "5"; "6"; "7"; "8"; "9"; "10"; "J"; "Q"; "K"]%string;
     VALUE := [Multi [1; 11]; Scalar 2; Scalar 3; Scalar 4; Scalar 5; Scalar 6; Scalar 7;
               Scalar 8; Scalar 9; Scalar 10; Scalar 10; Scalar 10; Scalar 10];
     CARDS_COUNT := [-1; 1; 1; 1; 1; 1; 0; 0; 0; -1; -1; -1; -1] |}.

(** A shoe of 104 cards, eight of each rank, stored at location 1. *)
Definition sample_deck : list Z := replicate 13 8.
Definition sample_heap : heap := {[ 1%positive := sample_deck ]}.

(** The hand a participant holds after drawing the ranks of [indices] in
    turn from the sample shoe, with bet [b] placed first. *)
Fixpoint deal (self : participant) (l : loc) (count : Z) (indices : list nat)
    : M (participant * (loc * Z)) :=
  match indices with
  | [] => mret (self, (l, count))
  | i :: rest =>
      r ← hit sample_settings self l count false i;
      deal r.1 r.2.1 r.2.2 rest
  end.

Definition hand_of (pt : string) (b : num) (indices : list nat) : outcome participant :=
  fst <$> (deal (set_bet sample_settings (init pt) (Some b)) 1%positive 0 indices sample_heap).1.

(** ** Well-formed constants, decks and hands *)

(** The three per-rank tables have one entry per rank. *)
Definition settings_wf (cfg : settings) : Prop :=
  length (VALUE cfg) = length (CARDS cfg) /\
  length (CARDS_COUNT cfg) = length (CARDS cfg).

(** A deck state: one count per rank, none negative. *)
Definition deck_wf (cfg : settings) (nums : list Z) : Prop :=
  length nums = length (CARDS cfg) /\ Forall (fun c => 0 <= c) nums.


(** The participant a settlement leaves when the product [bet * 1.5] of
    line 274 raises: the value was appended to [runV] at line 270, nothing
    was appended to [runW] and the hand was not reset. *)
Definition value_recorded (self : participant) : participant :=
  {| ptype := ptype self;
     soft_strategy := soft_strategy self;
     hard_strategy := hard_strategy self;
     cards := cards self;
     possible := possible self;
     value := value self;
     bet := bet self;
     active := active self;
     bust := bust self;
     runV := runV self ++ [value self];
     runW := runW self |}.

(** The states a participant goes through: construction, then any
    sequence of bets, draws, settlements, returning or raising, and
    resets. *)
Inductive reachable (cfg : settings) : participant -> Prop :=
| reach_init pt : reachable cfg (init pt)
| reach_reset self running :
    reachable cfg self -> reachable cfg (reset self running)
| reach_set_bet self b :
    reachable cfg self -> reachable cfg (set_bet cfg self b)
| reach_set_bet_counting self count nums self' :
    reachable cfg self -> set_bet_counting cfg self count nums = Ret self' ->
    reachable cfg self'
| reach_set_strategy self soft hard :
    reachable cfg self ->
    reachable cfg
      {| ptype := ptype self; soft_strategy := Some soft; hard_strategy := Some hard;
         cards := cards self; possible := possible self; value := value self;
         bet := bet self; active := active self; bust := bust self;
         runV := runV self; runW := runW self |}
| reach_hit self l count double index h self' r h' :
    reachable cfg self ->
    hit cfg self l count double index h = (Ret (self', r), h') ->
    reachable cfg self'
| reach_result self dealer self' :
    reachable cfg self -> result self dealer = Ret self' ->
    reachable cfg self'
| reach_result_raises self dealer e :
    reachable cfg self -> result self dealer = Raise e ->
    reachable cfg (value_recorded self).

(** The candidate values of a rank. *)
Definition face_values (v : face) : list Z :=
  match v with
  | Scalar v => [v]
  | Multi vs => vs
  end.

(** A bound on the draws a hand can take before no possible total is
    left, when every face value is at least 1: one more than the distance
    from the smallest possible total to 23. *)
Definition hits_left (self : participant) : nat :=
  match possible self with
  | [] => 0
  | x :: rest => S (Z.to_nat (23 - fold_left Z.min rest x))
  end.

(** Every face value is at least 1. *)
Definition face_positive (v : face) : Prop :=
  match v with
  | Scalar v => 1 <= v
  | Multi vs => Forall (fun v => 1 <= v) vs
  end.

(** Every cell of a strategy table is one of the three actions. *)
Definition actions_only (t : option table) : Prop :=
  forall t' col row a, t = Some t' -> t' col row = Some a ->
    a = "H"%string \/ a = "S"%string \/ a = "D"%string.

(** A dealer-like strategy for the sample rounds: hit below 17, stand
    from 17 on, whatever the column. *)
Definition sample_table : table := fun _ row =>
  if row <? 17 then Some "H"%string else Some "S"%string.

Definition sample_player : participant :=
  {| ptype := "p"; soft_strategy := Some sample_table; hard_strategy := Some sample_table;
     cards := []; possible := [0]; value := 0; bet := PInt 10;
     active := true; bust := false; runV := []; runW := [] |}.

(** A deck of 100 cards over the thirteen ranks. *)
Definition sample_deck_100 : list Z := [8; 8; 8; 8; 8; 8; 8; 8; 8; 8; 8; 8; 4].

(** A deck with a single card left, a king. *)
Definition sample_deck_1 : list Z := [0; 0; 0; 0; 0; 0; 0; 0; 0; 0; 0; 0; 1].

(** Modelled from the spec: the sample constants with a minimum bet of 0,
    a value [module.settings], which is not among the sources, may hold
    as well as any other. *)
Definition zero_bet_settings : settings :=
  {| MIN_BET := 0;
     N_CARD_EACH_DECK := N_CARD_EACH_DECK sample_settings;
     CARDS := CARDS sample_settings;
     VALUE := VALUE sample_settings;
     CARDS_COUNT := CARDS_COUNT sample_settings |}.

(** The double nearest to 530.8. *)
Definition f530_8 : spec_float := S754_finite false 4668966176188006 (-43).

(** ** Consistent hands *)

(** The largest total a participant may hold. *)
Definition limit (self : participant) : Z :=
  21 + (if is_dealer self then 1 else 0).

(** A hand as [hit] leaves it: the possible totals are distinct and within
    the limit; a bust hand has no total and value 0; otherwise the value
    is the largest possible total. *)
Definition hand_consistent (self : participant) : Prop :=
  NoDup (possible self) /\
  (forall T, T ∈ possible self -> T <= limit self) /\
  (bust self = true -> possible self = [] /\ value self = 0) /\
  (bust self = false ->
     value self ∈ possible self /\ forall T, T ∈ possible self -> T <= value self).

(** The state after a double, given the state after the same card drawn
    without doubling and the doubled bet. *)
Definition doubled (self : participant) (b : num) : participant :=
  {| ptype := ptype self;
     soft_strategy := soft_strategy self;
     hard_strategy := hard_strategy self;
     cards := cards self;
     possible := possible self;
     value := value self;
     bet := b;
     active := false;
     bust := bust self;
     runV := runV self;
     runW := runW self |}.

(** A bet that [bet * 1.5] can be computed for: a float, or an int below
    [2^1023] in size. *)
Definition bet_in_range (b : num) : Prop :=
  match b with
  | PInt z => Z.abs z < 2 ^ 1023
  | PFloat _ => True
  end.

(** ** Signs of doubles *)

(** A double that is not above zero: a zero, a negative finite double or
    minus infinity. *)
Definition not_positive (f : spec_float) : Prop :=
  match f with
  | S754_zero _ => True
  | S754_infinity s => s = true
  | S754_finite s _ _ => s = true
  | S754_nan => False
  end.

(** A finite double above zero. *)
Definition positive_finite (f : spec_float) : Prop :=
  match f with
  | S754_finite false _ _ => True
  | _ => False
  end.

(** ** Setting a strategy *)

(** What [set_strategy] reads from the folder of a strategy: the tables of
    [soft_totals.csv] and [hard_totals.csv] and the lines of
    [strategy.txt].  Reading the files is outside the model; the contents
    of the folder are an argument. *)
Record strategy_folder := {
  soft_totals : table;
  hard_totals : table;
  strategy_txt : list string
}.



Definition with_strategy (self : participant) (soft hard : table) : participant :=
  {| ptype := ptype self;
     soft_strategy := Some soft;
     hard_strategy := Some hard;
     cards := cards self;
     possible := possible self;
     value := value self;
     bet := bet self;
     active := active self;
     bust := bust self;
     runV := runV self;
     runW := runW self |}.


(** ** The game *)
Module Blackjack.

(** The attributes of a [blackjack] object; participants and lists are
    referred to by their locations. *)
Record blackjack := {
  players : list loc;
  dealer : loc;
  num_cards : loc;
  count : Z
}.

(** The objects of a run: the participants, the lists of counts, and how
    many cards were drawn so far, which is the position in the sequence
    of draws. *)
Record world := {
  objs : gmap positive participant;
  lists : heap;
  drawn : nat
}.

(** An exception of a participant's method, or a name that is not bound. *)
Inductive error :=
| Participant (e : exn)
| NameError (name : string).

Inductive run (A : Type) :=
| Done (a : A)
| Failed (e : error)
| OutOfFuel.
Arguments Done {A} a.
Arguments Failed {A} e.
Arguments OutOfFuel {A}.

#[global] Instance run_ret : MRet run := fun A a => Done a.
#[global] Instance run_bind : MBind run := fun A B f m =>
  match m with
  | Done a => f a
  | Failed e => Failed e
  | OutOfFuel => OutOfFuel
  end.

Definition with_deck (g : blackjack) (l : loc) (c : Z) : blackjack :=
  {| players := players g; dealer := dealer g; num_cards := l; count := c |}.


Definition add_player (g : blackjack) (player : list loc) : blackjack :=
  {| players := players g ++ player; dealer := dealer g;
     num_cards := num_cards g; count := count g |}.

(** [self.num_cards, self.count = x.hit(self.num_cards, self.count)] for
    the object [x]; an object that is no participant has no [hit]. *)
Definition hit_at (cfg : settings) (draws : nat -> nat) (x : loc)
    (g : blackjack) (w : world) : run (blackjack * world) :=
  match objs w !! x with
  | None => Failed (Participant AttributeError)
  | Some p =>
      match hit cfg p (num_cards g) (count g) false (draws (drawn w)) (lists w) with
      | (Ret (p', (l', c')), h') =>
          Done (with_deck g l' c',
                {| objs := <[x := p']> (objs w); lists := h'; drawn := S (drawn w) |})
      | (Raise e, _) => Failed (Participant e)
      | (Timeout, _) => OutOfFuel
      end
  end.

(** [for player in self.players: body] *)
Fixpoint for_each (body : loc -> blackjack -> world -> run (blackjack * world))
    (ps : list loc) (g : blackjack) (w : world) : run (blackjack * world) :=
  match ps with
  | [] => Done (g, w)
  | x :: rest => gw ← body x g w; for_each body rest gw.1 gw.2
  end.

(** Lines 63 to 65: a card to each player, one to the dealer, a second
    card to each player. *)
Definition deal (cfg : settings) (draws : nat -> nat) (g : blackjack) (w : world)
    : run (blackjack * world) :=
  gw ← for_each (hit_at cfg draws) (players g) g w;
  gw ← hit_at cfg draws (dealer gw.1) gw.1 gw.2;
  for_each (hit_at cfg draws) (players gw.1) gw.1 gw.2.

(** The body of the loop of line 67: the last argument of the call is the
    name [dealer], which nothing binds. *)
Definition strategy_at (x : loc) (g : blackjack) (w : world) : run (blackjack * world) :=
  match objs w !! x with
  | None => Failed (Participant AttributeError)
  | Some _ => Failed (NameError "dealer")
  end.

(** Line 68: the dealer plays with no dealer to look at. *)
Definition dealer_plays (cfg : settings) (fuel : nat) (draws : nat -> nat)
    (g : blackjack) (w : world) : run (blackjack * world) :=
  match objs w !! dealer g with
  | None => Failed (Participant AttributeError)
  | Some d =>
      match play_strategy cfg fuel (fun i => draws (drawn w + i)%nat) d
              (num_cards g) (count g) None (lists w) with
      | (Ret (d', (l', c')), h') =>
          Done (with_deck g l' c',
                {| objs := <[dealer g := d']> (objs w); lists := h';
                   drawn := (drawn w + (length (cards d') - length (cards d)))%nat |})
      | (Raise e, _) => Failed (Participant e)
      | (Timeout, _) => OutOfFuel
      end
  end.

(** The body of the loop of line 69. *)
Definition result_at (x : loc) (g : blackjack) (w : world) : run (blackjack * world) :=
  match objs w !! x, objs w !! dealer g with
  | Some p, Some d =>
      match result p d with
      | Ret p' =>
          Done (g, {| objs := <[x := p']> (objs w); lists := lists w; drawn := drawn w |})
      | Raise e => Failed (Participant e)
      | Timeout => OutOfFuel
      end
  | _, _ => Failed (Participant AttributeError)
  end.

(** [play]; the pair it returns is [(num_cards g, count g)] of the game
    it leaves. *)
Definition play (cfg : settings) (fuel : nat) (draws : nat -> nat)
    (g : blackjack) (w : world) : run (blackjack * world) :=
  gw ← deal cfg draws g w;
  gw ← for_each strategy_at (players gw.1) gw.1 gw.2;
  gw ← dealer_plays cfg fuel draws gw.1 gw.2;
  for_each result_at (players gw.1) gw.1 gw.2.

End Blackjack.

(** A strategy folder and a game on the sample shoe. *)
Definition sample_folder : strategy_folder :=
  {| soft_totals := sample_table; hard_totals := sample_table;
     strategy_txt := ["Dealer strategy"; "Counting: False"]%string |}.


Definition sample_world : Blackjack.world :=
  {| Blackjack.objs := {[ 1%positive := with_strategy (init "d") sample_table sample_table;
                          2%positive := sample_player ]};
     Blackjack.lists := sample_heap;
     Blackjack.drawn := 0 |}.

Definition sample_game : Blackjack.blackjack :=
  {| Blackjack.players := []; Blackjack.dealer := 1%positive;
     Blackjack.num_cards := 1%positive; Blackjack.count := 0 |}.

(** Sample hands for the settlement: a hand given by its cards, its
    possible totals, its value and its bet. *)
Definition sample_hand (pt : string) (cs : list string) (totals : list Z) (v : Z) (b : num)
    : participant :=
  {| ptype := pt; soft_strategy := Some sample_table; hard_strategy := Some sample_table;
     cards := cs; possible := totals; value := v; bet := b;
     active := true; bust := match totals with [] => true | _ => false end;
     runV := []; runW := [] |}.

(** A table with a cell that is no action. *)
Definition broken_table : table := fun _ _ => Some "X"%string.

(** * Properties *)

(** ** Settlement *)

Section Settlement.
  Implicit Types p d : participant.

Lemma final_result_cases p d :
  final_result p d =
    if value p <? value d then -1
    else if value d <? value p then 1
    else if value d =? 22 then 0
    else if (length (cards p) =? 2)%nat && (value p =? 21) then 2
    else if (value p =? 21) || (5 <=? length (cards p))%nat then 1
    else if bust p then -1
    else if bust d then 1
    else 0.
Proof.
  unfold final_result.
  repeat match goal with |- context [if ?b then _ else _] => destruct b end;
    reflexivity.
Qed.

(** Whatever was decided before, a dealer value above the participant's
    settles the round as a loss and one below it as a win. *)
Lemma final_result_dealer_higher p d :
  value p < value d -> final_result p d = -1.
Proof.
  intros H. rewrite final_result_cases.
  destruct (Z.ltb_spec (value p) (value d)); [reflexivity | lia].
Qed.

Lemma final_result_dealer_lower p d :
  value d < value p -> final_result p d = 1.
Proof.
  intros H. rewrite final_result_cases.
  destruct (Z.ltb_spec (value p) (value d)); [lia |].
  destruct (Z.ltb_spec (value d) (value p)); [reflexivity | lia].
Qed.

Lemma winnings_payout v b :
  winnings (verdict_code v) b = (fun w => [w]) <$> payout v b.
Proof.
  destruct v; cbn; try reflexivity.
  all: destruct (num_mul b (PFloat one_and_half)); reflexivity.
Qed.

(** C4. [result] decides the round by the five rules of the outcome
    resolver, applied in their order with a later rule that applies
    overriding the verdict so far: push to start with; participant bust
    is a loss, else dealer bust is a win; two cards and 21 is a blackjack,
    else 21 or five cards is a win; dealer value 22 is a push; and last
    the comparison of values, where a greater dealer value is a loss, a
    smaller one a win and equality keeps the verdict.  The winnings
    recorded are the payout of that verdict. *)
Theorem result_applies_rules_in_order p d :
  final_result p d = verdict_code (resolve p d) /\
  (runW <$> result p d) = ((fun w => runW p ++ [w]) <$> payout (resolve p d) (bet p)) /\
  (runV <$> result p d) = ((fun _ => runV p ++ [value p]) <$> payout (resolve p d) (bet p)).
Proof.
  assert (Hcode : final_result p d = verdict_code (resolve p d)).
  { unfold final_result, resolve, apply_rules, rule_bust, rule_blackjack,
      rule_standoff, rule_compare. cbn [fold_left].
    destruct (bust p), (bust d);
      repeat case_bool_decide;
      repeat match goal with
        | |- context [(?a =? ?b)%nat] => destruct (Nat.eqb_spec a b)
        | |- context [(?a <=? ?b)%nat] => destruct (Nat.leb_spec a b)
        | |- context [?a =? ?b] => destruct (Z.eqb_spec a b)
        | |- context [?a <? ?b] => destruct (Z.ltb_spec a b)
        end; cbn; try reflexivity; try lia; intuition lia. }
  split; [exact Hcode |].
  unfold result. rewrite Hcode, winnings_payout.
  destruct (payout (resolve p d) (bet p)); split; reflexivity.
Qed.

End Settlement.

(** ** The dealer's 22, the blackjack and the five-card hand at settlement *)

Section Overrides.
  Implicit Types p d : participant.

(** The bust check keeps a dealer total of 22. *)
Lemma check_bust_dealer_22 d val1 val2 :
  is_dealer d = true -> val1 + val2 = 22 -> check_bust d val1 val2 = true.
Proof.
  intros Hd H. unfold check_bust. rewrite Hd, H. reflexivity.
Qed.

Lemma result_runW p d w :
  winnings (final_result p d) (bet p) = Ret w ->
  runW <$> result p d = Ret (runW p ++ w).
Proof.
  intros H. unfold result. rewrite H. reflexivity.
Qed.

(** Against a dealer value of 22 every participant below 22 is recorded
    as losing the bet: the comparison of values comes after the push. *)
Lemma result_dealer_22 p d :
  value d = 22 -> value p < 22 ->
  runW <$> result p d = Ret (runW p ++ [num_neg (bet p)]).
Proof.
  intros Hd Hp. apply result_runW.
  rewrite final_result_dealer_higher by lia. reflexivity.
Qed.

(** A two-card 21 against a dealer value below 21 is recorded as a plain
    win of the bet. *)
Lemma result_blackjack_dealer_lower p d :
  value p = 21 -> value d < 21 ->
  runW <$> result p d = Ret (runW p ++ [bet p]).
Proof.
  intros Hp Hd. apply result_runW.
  rewrite final_result_dealer_lower by lia. reflexivity.
Qed.

(** C1. The dealer draws 10, 2 and K: the hand is worth 22 and is not
    bust.  A participant holding 10 and K with a bet of 10 is then
    settled against it: the winnings recorded are -10, not the push the
    claim asks for. *)
Theorem dealer_22_recorded_as_loss :
  (d ← hand_of "d" (PInt 0) [9; 1; 12]%nat; Ret (possible d, value d, bust d))
    = Ret ([22], 22, false) /\
  (p ← hand_of "p" (PInt 10) [9; 12]%nat;
   d ← hand_of "d" (PInt 0) [9; 1; 12]%nat;
   runW <$> result p d) = Ret [PInt (-10)].
Proof. split; vm_compute; reflexivity. Qed.

(** C2. A participant holding A and 10 (two cards, value 21) with a bet
    of 10 against a dealer holding 10 and 10 (value 20): the winnings
    recorded are 10, the bet itself, not 1.5 times the bet. *)
Theorem blackjack_recorded_as_plain_win :
  (p ← hand_of "p" (PInt 10) [0; 9]%nat; Ret (cards p, value p, bust p))
    = Ret (["A"; "10"]%string, 21, false) /\
  (p ← hand_of "p" (PInt 10) [0; 9]%nat;
   d ← hand_of "d" (PInt 0) [9; 9]%nat;
   runW <$> result p d) = Ret [PInt 10].
Proof. split; vm_compute; reflexivity. Qed.

(** C3. A participant holding 2, 2, 3, 3 and 4 (five cards, value 14, not
    bust) with a bet of 10 against a dealer holding 10 and 10 (value 20):
    the winnings recorded are -10, a loss, not a win. *)
Theorem five_cards_recorded_as_loss :
  (p ← hand_of "p" (PInt 10) [1; 1; 2; 2; 3]%nat; Ret (length (cards p), value p, bust p))
    = Ret (5%nat, 14, false) /\
  (p ← hand_of "p" (PInt 10) [1; 1; 2; 2; 3]%nat;
   d ← hand_of "d" (PInt 0) [9; 9]%nat;
   runW <$> result p d) = Ret [PInt (-10)].
Proof. split; vm_compute; reflexivity. Qed.

End Overrides.

(** ** Doubles: when a conversion or a division returns *)

Section Doubles.

Lemma Zdigits2_nonneg m : 0 <= Zdigits2 m.
Proof. destruct m; cbn; lia. Qed.

Lemma digits2_pos_size p : digits2_pos p = Pos.size p.
Proof. induction p; cbn; congruence. Qed.

(** A nonnegative integer is below two to the number of its digits. *)
Lemma Zdigits2_gt m : 0 <= m -> m < 2 ^ Zdigits2 m.
Proof.
  destruct m as [|p|p]; intros H; [reflexivity | | lia].
  cbn [Zdigits2]. rewrite digits2_pos_size.
  pose proof (Pos.size_gt p) as Hp.
  apply Pos2Z.pos_lt_pos in Hp. rewrite Pos2Z.inj_pow in Hp. exact Hp.
Qed.

(** An integer below [2^k] has at most [k] digits. *)
Lemma Zdigits2_le m k : 0 <= m -> 0 <= k -> m < 2 ^ k -> Zdigits2 m <= k.
Proof.
  destruct m as [|p|p]; intros H Hk Hlt; [exact Hk | | lia].
  cbn [Zdigits2]. rewrite digits2_pos_size.
  pose proof (Pos.size_le p) as Hp.
  apply Pos2Z.pos_le_pos in Hp. rewrite Pos2Z.inj_pow, (Pos2Z.inj_xO p) in Hp.
  destruct (Z_lt_le_dec k (Z.pos (Pos.size p))) as [Hgt | Hle]; [exfalso | exact Hle].
  assert (Hpow : 2 ^ (Z.succ k) <= 2 ^ Z.pos (Pos.size p))
    by (apply Z.pow_le_mono_r; lia).
  rewrite Z.pow_succ_r in Hpow by lia. lia.
Qed.

Lemma Zdigits2_succ m : 0 <= m -> Zdigits2 (m + 1) <= Zdigits2 m + 1.
Proof.
  intros H. apply Zdigits2_le; [lia | pose proof (Zdigits2_nonneg m); lia |].
  pose proof (Zdigits2_gt m H) as Hgt.
  replace (Zdigits2 m + 1) with (Z.succ (Zdigits2 m)) by lia.
  rewrite Z.pow_succ_r by apply Zdigits2_nonneg. lia.
Qed.

(** One shift to the right drops one digit. *)
Lemma shr_1_digits mrs :
  0 <= shr_m mrs ->
  0 <= shr_m (shr_1 mrs) /\
  Zdigits2 (shr_m (shr_1 mrs)) = Z.max 0 (Zdigits2 (shr_m mrs) - 1).
Proof.
  destruct mrs as [m r s]. cbn [shr_m]. intros H.
  destruct m as [|[p|p|]|p]; cbn; try lia.
Qed.

Lemma iter_shr_1_digits p :
  forall mrs, 0 <= shr_m mrs ->
    0 <= shr_m (SpecFloat.iter_pos shr_1 p mrs) /\
    Zdigits2 (shr_m (SpecFloat.iter_pos shr_1 p mrs)) = Z.max 0 (Zdigits2 (shr_m mrs) - Z.pos p).
Proof.
  induction p as [p IH | p IH |]; intros mrs H; cbn [SpecFloat.iter_pos].
  - destruct (shr_1_digits mrs H) as [H1 E1].
    destruct (IH _ H1) as [H2 E2]. destruct (IH _ H2) as [H3 E3].
    split; [exact H3 |]. rewrite E3, E2, E1. lia.
  - destruct (IH _ H) as [H2 E2]. destruct (IH _ H2) as [H3 E3].
    split; [exact H3 |]. rewrite E3, E2. lia.
  - apply shr_1_digits. exact H.
Qed.

Lemma shr_m_of_loc m l : shr_m (shr_record_of_loc m l) = m.
Proof. destruct l as [|[]]; reflexivity. Qed.

(** The exponent and the digits left by the shift that brings a mantissa
    to its format. *)
Lemma shr_fexp_digits m e l :
  0 <= m ->
  0 <= shr_m (shr_fexp prec emax m e l).1 /\
  (shr_fexp prec emax m e l).2 = Z.max e (fexp prec emax (Zdigits2 m + e)) /\
  Zdigits2 (shr_m (shr_fexp prec emax m e l).1)
    = Z.max 0 (Zdigits2 m - ((shr_fexp prec emax m e l).2 - e)).
Proof.
  intros H. unfold shr_fexp, shr.
  pose proof (Zdigits2_nonneg m) as Hd.
  destruct (fexp prec emax (Zdigits2 m + e) - e) as [|p|p] eqn:E; cbn [fst snd].
  - rewrite shr_m_of_loc. split; [exact H |]. split; lia.
  - destruct (iter_shr_1_digits p (shr_record_of_loc m l)) as [H1 E1];
      [rewrite shr_m_of_loc; exact H |].
    rewrite shr_m_of_loc in E1. split; [exact H1 |]. split; [lia |].
    rewrite E1. f_equal. lia.
  - rewrite shr_m_of_loc. split; [exact H |]. split; lia.
Qed.

Lemma round_nearest_even_bounds m l :
  0 <= m -> m <= round_nearest_even m l <= m + 1.
Proof.
  intros H. destruct l as [|[]]; cbn; try lia. destruct (Z.even m); lia.
Qed.

(** Rounding a nonnegative mantissa well below the largest double gives a
    zero or a finite double. *)
Lemma binary_round_aux_number s m e l :
  0 <= m -> e <= 970 -> Zdigits2 m + e <= 1023 ->
  is_number (binary_round_aux prec emax s m e l).
Proof.
  intros Hm He Hd. unfold binary_round_aux.
  destruct (shr_fexp_digits m e l Hm) as (H1 & E1 & D1).
  destruct (shr_fexp prec emax m e l) as [mrs' e']. cbn [fst snd] in *.
  set (m1 := round_nearest_even (shr_m mrs') (loc_of_shr_record mrs')).
  pose proof (round_nearest_even_bounds (shr_m mrs') (loc_of_shr_record mrs') H1) as Hr.
  fold m1 in Hr.
  assert (Hm1 : 0 <= m1) by lia.
  assert (Hd1 : Zdigits2 m1 <= Zdigits2 (shr_m mrs') + 1).
  { destruct (Z.eq_dec m1 (shr_m mrs')) as [-> | Hne]; [lia |].
    replace m1 with (shr_m mrs' + 1) by lia. apply Zdigits2_succ. exact H1. }
  destruct (shr_fexp_digits m1 e' loc_Exact Hm1) as (H2 & E2 & _).
  destruct (shr_fexp prec emax m1 e' loc_Exact) as [mrs'' e'']. cbn [fst snd] in *.
  pose proof (Zdigits2_nonneg m) as Hdm.
  unfold fexp, emin, prec, emax in *.
  destruct (shr_m mrs'') as [|p|p]; [exact I | | lia].
  destruct (Z.leb_spec e'' (1024 - 53)); [exact I | lia].
Qed.

Lemma digits2_pos_iter_xO m d :
  Z.pos (digits2_pos (Pos.iter xO m d)) = Z.pos (digits2_pos m) + Z.pos d.
Proof.
  induction d as [|d IH] using Pos.peano_ind.
  - cbn. lia.
  - rewrite Pos.iter_succ. cbn [digits2_pos]. lia.
Qed.

(** [float(z)] returns for an integer below [2^1023] in size. *)
Lemma float_of_int_ret z :
  Z.abs z < 2 ^ 1023 -> exists f, float_of_int z = Ret f /\ is_number f.
Proof.
  intros Hz. unfold float_of_int.
  assert (H : is_number (binary_normalize prec emax z 0 false)).
  { destruct z as [|p|p]; [exact I | |];
      unfold binary_normalize, binary_round, shl_align;
      pose proof (Zdigits2_le (Z.pos p) 1023 ltac:(lia) ltac:(lia) ltac:(lia)) as Hd;
      cbn [Zdigits2] in Hd;
      (destruct (fexp prec emax (Z.pos (digits2_pos p) + 0) - 0) as [|q|q] eqn:E;
       apply binary_round_aux_number; cbn [Zdigits2];
       rewrite ?digits2_pos_iter_xO; unfold fexp, emin, prec, emax in *; lia). }
  destruct (binary_normalize prec emax z 0 false); try contradiction; eauto.
Qed.

(** [a / b] returns for a dividend below [2^1023] in size and a divisor
    that is not 0. *)
Lemma int_truediv_ret a b :
  b <> 0 -> Z.abs a < 2 ^ 1023 -> exists f, int_truediv a b = Ret f /\ is_number f.
Proof.
  intros Hb Ha. unfold int_truediv.
  destruct (Z.eqb_spec b 0) as [| _]; [contradiction |].
  destruct (Z.eqb_spec a 0) as [| Hne]; [eexists; split; [reflexivity | exact I] |].
  assert (H : forall s,
    is_number (let '(q, e, l) := SFdiv_core_binary prec emax (Z.abs a) 0 (Z.abs b) 0 in
               binary_round_aux prec emax s q e l)).
  { intros s. unfold SFdiv_core_binary.
    set (d1 := Zdigits2 (Z.abs a)). set (d2 := Zdigits2 (Z.abs b)).
    set (e' := Z.min (fexp prec emax (d1 + 0 - (d2 + 0))) (0 - 0)).
    set (m' := match 0 - 0 - e' with
               | 0 => Z.abs a
               | Z.pos _ => Z.shiftl (Z.abs a) (0 - 0 - e')
               | Z.neg _ => 0
               end).
    assert (He' : e' <= 0) by (unfold e'; lia).
    assert (Hd1 : d1 <= 1023) by (apply Zdigits2_le; lia).
    assert (Hm' : 0 <= m' < 2 ^ (d1 - e')).
    { pose proof (Zdigits2_gt (Z.abs a) ltac:(lia)) as Hgt. fold d1 in Hgt.
      pose proof (Zdigits2_nonneg (Z.abs a)) as Hd. fold d1 in Hd.
      unfold m'. destruct (0 - 0 - e') as [|p|p] eqn:E; [| | lia].
      - replace (d1 - e') with d1 by lia. lia.
      - rewrite Z.shiftl_mul_pow2 by lia.
        replace (d1 - e') with (d1 + Z.pos p) by lia.
        rewrite Z.pow_add_r by lia. nia. }
    pose proof (Z.div_eucl_eq m' (Z.abs b) ltac:(lia)) as Hdiv.
    pose proof (Z.mod_pos_bound m' (Z.abs b) ltac:(lia)) as Hmod.
    unfold Z.modulo in Hmod.
    destruct (Z.div_eucl m' (Z.abs b)) as [q r].
    assert (Hq : 0 <= q <= m') by nia.
    apply binary_round_aux_number; [lia | lia |].
    assert (Zdigits2 q <= d1 - e'); [| lia].
    pose proof (Zdigits2_nonneg (Z.abs a)) as Hd. fold d1 in Hd.
    apply Zdigits2_le; lia. }
  specialize (H (xorb (a <? 0) (b <? 0))).
  destruct (SFdiv_core_binary prec emax (Z.abs a) 0 (Z.abs b) 0) as [[q e] l].
  destruct (binary_round_aux prec emax _ q e l); try contradiction; eauto.
Qed.

(** Rounding keeps the sign. *)
Lemma binary_round_aux_sign s m e l :
  0 <= m ->
  match binary_round_aux prec emax s m e l with
  | S754_zero s' | S754_infinity s' | S754_finite s' _ _ => s' = s
  | S754_nan => False
  end.
Proof.
  intros Hm. unfold binary_round_aux.
  destruct (shr_fexp_digits m e l Hm) as (H1 & _ & _).
  destruct (shr_fexp prec emax m e l) as [mrs' e']. cbn [fst snd] in *.
  pose proof (round_nearest_even_bounds (shr_m mrs') (loc_of_shr_record mrs') H1) as Hr.
  destruct (shr_fexp_digits (round_nearest_even (shr_m mrs') (loc_of_shr_record mrs')) e'
              loc_Exact ltac:(lia)) as (H2 & _ & _).
  destruct (shr_fexp prec emax _ e' loc_Exact) as [mrs'' e'']. cbn [fst snd] in *.
  destruct (shr_m mrs'') as [|p|p]; [reflexivity | | lia].
  destruct (e'' <=? emax - prec); reflexivity.
Qed.

(** A positive integer is at least two to the number of its digits less
    one. *)
Lemma Zdigits2_ge m : 0 < m -> 2 ^ (Zdigits2 m - 1) <= m.
Proof.
  destruct m as [|p|p]; intros H; try lia.
  cbn [Zdigits2]. rewrite digits2_pos_size.
  pose proof (Pos.size_le p) as Hp.
  apply Pos2Z.pos_le_pos in Hp. rewrite Pos2Z.inj_pow, (Pos2Z.inj_xO p) in Hp.
  replace (Z.pos (Pos.size p)) with (Z.succ (Z.pos (Pos.size p) - 1)) in Hp by lia.
  rewrite Z.pow_succ_r in Hp by lia. lia.
Qed.

(** The quotient of a count by a total it is part of is a double that is
    not below 0. *)
Lemma int_truediv_fraction a b :
  0 <= a <= b -> 0 < b ->
  exists q, int_truediv a b = Ret q /\ SFltb q (S754_zero false) = false.
Proof.
  intros Ha Hb. unfold int_truediv.
  destruct (Z.eqb_spec b 0) as [| _]; [lia |].
  replace (a <? 0) with false by (symmetry; apply Z.ltb_ge; lia).
  replace (b <? 0) with false by (symmetry; apply Z.ltb_ge; lia).
  cbn [xorb].
  destruct (Z.eqb_spec a 0) as [| Hne]; [eexists; split; reflexivity |].
  rewrite !Z.abs_eq by lia.
  assert (H : is_number (let '(q, e, l) := SFdiv_core_binary prec emax a 0 b 0 in
                         binary_round_aux prec emax false q e l) /\
              match (let '(q, e, l) := SFdiv_core_binary prec emax a 0 b 0 in
                     binary_round_aux prec emax false q e l) with
              | S754_zero s' | S754_infinity s' | S754_finite s' _ _ => s' = false
              | S754_nan => False
              end).
  { unfold SFdiv_core_binary.
    set (d1 := Zdigits2 a). set (d2 := Zdigits2 b).
    set (e' := Z.min (fexp prec emax (d1 + 0 - (d2 + 0))) (0 - 0)).
    set (m' := match 0 - 0 - e' with
               | 0 => a
               | Z.pos _ => Z.shiftl a (0 - 0 - e')
               | Z.neg _ => 0
               end).
    assert (He' : e' <= 0) by (unfold e'; lia).
    pose proof (Zdigits2_nonneg a) as Hd1. fold d1 in Hd1.
    assert (Hd2 : 0 < d2) by (unfold d2; destruct b; cbn; lia).
    assert (Hd : d1 <= d2).
    { apply Zdigits2_le; [lia | lia |].
      pose proof (Zdigits2_gt b ltac:(lia)) as Hgt. fold d2 in Hgt. lia. }
    assert (Hm' : 0 <= m' < 2 ^ (d1 - e')).
    { pose proof (Zdigits2_gt a ltac:(lia)) as Hgt. fold d1 in Hgt.
      unfold m'. destruct (0 - 0 - e') as [|p|p] eqn:E; [| | lia].
      - replace (d1 - e') with d1 by lia. lia.
      - rewrite Z.shiftl_mul_pow2 by lia.
        replace (d1 - e') with (d1 + Z.pos p) by lia.
        rewrite Z.pow_add_r by lia. nia. }
    pose proof (Z.div_eucl_eq m' b ltac:(lia)) as Hdiv.
    pose proof (Z.mod_pos_bound m' b ltac:(lia)) as Hmod.
    unfold Z.modulo in Hmod.
    destruct (Z.div_eucl m' b) as [q r].
    assert (Hq : 0 <= q <= m') by nia.
    split; [| apply binary_round_aux_sign; lia].
    apply binary_round_aux_number; [lia | lia |].
    assert (Zdigits2 q <= 1 - e'); [| lia].
    apply Zdigits2_le; [lia | lia |].
    pose proof (Zdigits2_ge b Hb) as Hb2. fold d2 in Hb2.
    assert (Hpos : 0 < 2 ^ (d2 - 1)) by (apply Z.pow_pos_nonneg; lia).
    assert (Hpow1 : 2 ^ (d1 - e') <= 2 ^ (d2 - e')) by (apply Z.pow_le_mono_r; lia).
    assert (Hpow2 : 2 ^ (d2 - e') = 2 ^ (d2 - 1) * 2 ^ (1 - e')).
    { rewrite <- Z.pow_add_r by lia. f_equal. lia. }
    assert (Hqb : q * 2 ^ (d2 - 1) <= q * b) by (apply Z.mul_le_mono_nonneg_l; lia).
    apply (Z.mul_lt_mono_pos_l (2 ^ (d2 - 1))); [exact Hpos |]. lia. }
  destruct (SFdiv_core_binary prec emax a 0 b 0) as [[q e] l].
  destruct H as [H1 H2].
  destruct (binary_round_aux prec emax false q e l); cbn in H1, H2; try contradiction;
    subst; eexists; split; reflexivity.
Qed.

End Doubles.

(** ** Drawing a card *)

Section Draw.
  Variable cfg : settings.
  Implicit Types (self : participant) (h : heap) (nums : list Z).

Lemma py_sum_cons c nums : py_sum (c :: nums) = c + py_sum nums.
Proof. reflexivity. Qed.

Lemma py_sum_insert nums i c x :
  nums !! i = Some c -> py_sum (<[i := x]> nums) = py_sum nums - c + x.
Proof.
  revert i. induction nums as [|y nums IH]; intros [|i] H; try discriminate.
  - injection H as ->. change (<[0%nat:=x]> (c :: nums)) with (x :: nums).
    rewrite !py_sum_cons. lia.
  - change (<[S i:=x]> (y :: nums)) with (y :: <[i:=x]> nums).
    rewrite !py_sum_cons, (IH i H). lia.
Qed.

Lemma py_sum_nonneg nums :
  Forall (fun c => 0 <= c) nums -> 0 <= py_sum nums.
Proof. induction 1; rewrite ?py_sum_cons; [reflexivity | lia]. Qed.

(** A deck with cards left has a rank that can be drawn. *)
Lemma sampled_exists nums :
  Forall (fun c => 0 <= c) nums -> 0 < py_sum nums -> exists index, sampled nums index.
Proof.
  intros Hall Hs.
  assert (Hex : exists i c, nums !! i = Some c /\ 0 < c).
  { induction Hall as [|c nums Hc Hall IH]; [discriminate |].
    rewrite py_sum_cons in Hs.
    destruct (decide (0 < c)) as [Hc' | Hc'].
    - exists 0%nat, c. split; [reflexivity | lia].
    - destruct IH as (i & c' & Hi & Hc''); [lia |].
      exists (S i), c'. split; [exact Hi | lia]. }
  destruct Hex as (i & c & Hi & Hc). exists i, c. split; [exact Hi | nia].
Qed.

(** What can be drawn from a well-formed deck has a count of at least 1. *)
Lemma sampled_count nums index :
  Forall (fun c => 0 <= c) nums -> sampled nums index ->
  exists c, nums !! index = Some c /\ 1 <= c /\ 0 < py_sum nums.
Proof.
  intros Hall (c & Hi & Hc). exists c. split; [exact Hi |].
  pose proof (py_sum_nonneg nums Hall).
  assert (0 <= c) by (eapply (proj1 (Forall_lookup _ _) Hall); eauto).
  nia.
Qed.

Lemma count_le_sum nums :
  Forall (fun c => 0 <= c) nums -> Forall (fun c => 0 <= c <= py_sum nums) nums.
Proof.
  induction 1 as [| c nums Hc Hall IH]; [constructor |].
  pose proof (py_sum_nonneg nums Hall) as Hs.
  rewrite py_sum_cons. constructor; [lia |].
  eapply Forall_impl; [exact IH |]. cbn. intros; lia.
Qed.

(** The quotients of counts that are part of a positive total: one per
    count, none below 0. *)
Lemma quotients_ok total nums :
  0 < total -> Forall (fun c => 0 <= c <= total) nums ->
  exists prob, quotients total nums = Ret prob /\ length prob = length nums /\
               existsb (fun q => SFltb q (S754_zero false)) prob = false.
Proof.
  intros Ht. induction 1 as [| c nums Hc _ IH].
  - exists []. repeat split.
  - destruct (int_truediv_fraction c total Hc Ht) as (q & Hq & Hs).
    destruct IH as (prob & Hp & Hlen & Hneg).
    exists (q :: prob). cbn [quotients]. rewrite Hq. cbn [mbind outcome_bind].
    rewrite Hp. cbn [mbind outcome_bind]. split; [reflexivity |].
    cbn [length existsb]. rewrite Hs, Hneg, Hlen. split; reflexivity.
Qed.

Lemma quotients_never_time_out total nums : quotients total nums <> Timeout.
Proof.
  induction nums as [| c nums IH]; [discriminate |]. cbn [quotients].
  unfold int_truediv.
  destruct (total =? 0); [discriminate |].
  destruct (quotients total nums); [| | contradiction].
  - destruct (c =? 0); [discriminate |].
    destruct (SFdiv_core_binary prec emax (Z.abs c) 0 (Z.abs total) 0) as [[q0 e0] l0].
    destruct (binary_round_aux prec emax _ q0 e0 l0); discriminate.
  - destruct (c =? 0); [discriminate |].
    destruct (SFdiv_core_binary prec emax (Z.abs c) 0 (Z.abs total) 0) as [[q0 e0] l0].
    destruct (binary_round_aux prec emax _ q0 e0 l0); discriminate.
Qed.

Lemma choice_check_never_times_out nums : choice_check cfg nums <> Timeout.
Proof.
  unfold choice_check. pose proof (quotients_never_time_out (py_sum nums) nums) as H.
  destruct (quotients (py_sum nums) nums) as [prob| |]; [| discriminate | contradiction].
  cbn [mbind outcome_bind].
  match goal with |- (if ?b then _ else _) <> _ => destruct b; discriminate end.
Qed.

Lemma choice_check_ok nums :
  deck_wf cfg nums -> 0 < py_sum nums -> choice_check cfg nums = Ret tt.
Proof.
  intros [Hlen Hall] Hs. unfold choice_check.
  destruct (quotients_ok (py_sum nums) nums Hs (count_le_sum nums Hall))
    as (prob & Hq & Hp & Hneg).
  rewrite Hq. cbn [mbind outcome_bind]. rewrite Hneg.
  assert (Hne : length nums <> 0%nat) by (destruct nums; [cbn in Hs; lia | discriminate]).
  replace (length (CARDS cfg) =? 0)%nat with false
    by (symmetry; apply Nat.eqb_neq; lia).
  replace (length prob =? length (CARDS cfg))%nat with true
    by (symmetry; apply Nat.eqb_eq; lia).
  reflexivity.
Qed.

(** With no card left the probabilities cannot be computed. *)
Lemma choice_check_empty nums :
  py_sum nums = 0 -> exists e, choice_check cfg nums = Raise e /\
    (nums <> [] -> e = ZeroDivisionError).
Proof.
  intros Hs. unfold choice_check. rewrite Hs.
  destruct nums as [|c nums].
  - cbn [quotients mbind outcome_bind length]. exists ValueError.
    split; [| congruence].
    destruct (length (CARDS cfg)) eqn:E; reflexivity.
  - exists ZeroDivisionError. split; reflexivity.
Qed.

Lemma num_mul_two b : exists b', num_mul b (PInt 2) = Ret b'.
Proof. destruct b; cbn; eauto. Qed.

Lemma np_max_ret xs : xs <> [] -> exists m, np_max xs = Ret m.
Proof. destruct xs; [congruence | cbn; eauto]. Qed.

Lemma remove_dups_nil_inv (xs : list Z) : remove_dups xs = [] -> xs = [].
Proof.
  destruct xs as [|x xs]; [reflexivity |]. intros H.
  assert (Hx : x ∈ remove_dups (x :: xs)) by (apply elem_of_remove_dups; left).
  rewrite H in Hx. inversion Hx.
Qed.

(** The effect of a draw that goes through: the copy of the deck at a new
    location, the new count, and the new state of the hand. *)
Lemma hit_ret self l count double index h nums c card v w :
  h !! l = Some nums ->
  choice_check cfg nums = Ret tt ->
  CARDS cfg !! index = Some card ->
  VALUE cfg !! index = Some v ->
  nums !! index = Some c ->
  CARDS_COUNT cfg !! index = Some w ->
  exists self',
    hit cfg self l count double index h
      = (Ret (self', (fresh (dom h), count + w)),
         <[fresh (dom h) := <[index := c - 1]> nums]> h) /\
    possible self' = remove_dups (new_possible self v) /\
    bust self' = (if decide (new_possible self v = []) then true else bust self) /\
    (bust self' = true -> value self' = 0) /\
    (bust self' = false -> np_max (possible self') = Ret (value self')) /\
    cards self' = cards self ++ [card] /\
    active self' = (if double then false else active self) /\
    (double = false -> bet self' = bet self) /\
    ptype self' = ptype self /\
    soft_strategy self' = soft_strategy self /\
    hard_strategy self' = hard_strategy self /\
    runV self' = runV self /\ runW self' = runW self.
Proof.
  intros Hl Hchk Hcard Hv Hc Hw.
  unfold hit, mbind, M_bind, load, lift, alloc, store, py_index, mret, M_ret.
  rewrite Hl, Hchk, Hcard, Hv, Hc, Hw. cbn beta iota.
  rewrite insert_insert_eq.
  set (poss := new_possible self v).
  assert (Hlen : (length poss =? 0)%nat = if decide (poss = []) then true else false).
  { destruct poss; reflexivity. }
  rewrite Hlen.
  assert (Hbet : exists b', (if double then num_mul (bet self) (PInt 2) else Ret (bet self)) = Ret b'
                            /\ (double = false -> b' = bet self)).
  { destruct double.
    - destruct (num_mul_two (bet self)) as [b' Hb]. exists b'. split; [exact Hb | discriminate].
    - exists (bet self). split; reflexivity. }
  destruct Hbet as (b' & -> & Hb').
  destruct (decide (poss = [])) as [E | E].
  - eexists. split; [reflexivity |]. cbn. rewrite E.
    repeat split; try reflexivity; try discriminate; auto.
  - destruct (bust self) eqn:Hb.
    + eexists. split; [reflexivity |]. cbn.
      repeat split; try reflexivity; try discriminate; auto.
    + destruct (np_max_ret (remove_dups poss)) as [m Hm].
      { intros H. apply remove_dups_nil_inv in H. contradiction. }
      rewrite Hm. eexists. split; [reflexivity |]. cbn.
      repeat split; try reflexivity; try discriminate; auto.
Qed.

(** A draw that goes through found a list, passed the checks on the
    probabilities and found the drawn index in every table. *)
Lemma hit_inv self l count double index h x h' :
  hit cfg self l count double index h = (Ret x, h') ->
  exists nums c card v w,
    h !! l = Some nums /\ choice_check cfg nums = Ret tt /\
    CARDS cfg !! index = Some card /\ VALUE cfg !! index = Some v /\
    nums !! index = Some c /\ CARDS_COUNT cfg !! index = Some w.
Proof.
  unfold hit, mbind, M_bind, load, lift, alloc, store, py_index, mret, M_ret.
  intros H.
  destruct (h !! l) as [nums|] eqn:E1; [|discriminate].
  destruct (choice_check cfg nums) as [[]| |] eqn:E2; [|discriminate..].
  destruct (CARDS cfg !! index) as [card|] eqn:E3; [|discriminate].
  destruct (VALUE cfg !! index) as [v|] eqn:E4; [|discriminate].
  destruct (nums !! index) as [c|] eqn:E5; [|discriminate].
  destruct (CARDS_COUNT cfg !! index) as [w|] eqn:E6; [|discriminate].
  exists nums, c, card, v, w. auto 10.
Qed.

(** Whatever the outcome of a draw, every list object of the store is as
    it was. *)
Lemma hit_frame self l count double index h r h' :
  hit cfg self l count double index h = (r, h') ->
  forall l0 xs, h !! l0 = Some xs -> h' !! l0 = Some xs.
Proof.
  unfold hit, mbind, M_bind, load, lift, alloc, store, py_index, mret, M_ret.
  intros H l0 xs Hl0.
  assert (Hfresh : l0 <> fresh (dom h)).
  { intros ->. apply (is_fresh (dom h)). apply elem_of_dom. eauto. }
  assert (Hnew : forall ys, <[fresh (dom h) := ys]> h !! l0 = Some xs).
  { intros ys. rewrite lookup_insert_ne by congruence. exact Hl0. }
  destruct (h !! l) as [nums|]; [|injection H as _ <-; exact Hl0].
  destruct (choice_check cfg nums) as [[]| |]; [|injection H as _ <-; exact Hl0..].
  destruct (CARDS cfg !! index) as [card|]; [|injection H as _ <-; exact Hl0].
  destruct (VALUE cfg !! index) as [v|]; [|injection H as _ <-; exact Hl0].
  destruct (nums !! index) as [c|]; [|injection H as _ <-; apply Hnew].
  rewrite insert_insert_eq in H.
  repeat match type of H with
    | context [match ?x with _ => _ end] => destruct x
    end;
    injection H as _ <-; apply Hnew.
Qed.

(** A draw from a well-formed deck with cards left, of a rank that can be
    drawn. *)
Lemma hit_on_deck self l count double index h nums :
  settings_wf cfg ->
  h !! l = Some nums ->
  deck_wf cfg nums ->
  0 < py_sum nums ->
  sampled nums index ->
  exists self' l' count' h' nums' c,
    hit cfg self l count double index h = (Ret (self', (l', count')), h') /\
    h' !! l' = Some nums' /\
    py_sum nums' = py_sum nums - 1 /\
    Forall (fun c => 0 <= c) nums' /\
    nums !! index = Some c /\ 1 <= c /\ nums' = <[index := c - 1]> nums.
Proof.
  intros [Hval Hcnt] Hl [Hlen Hall] Hs Hsam.
  destruct (sampled_count nums index Hall Hsam) as (c & Hc & Hc1 & _).
  assert (Hi : (index < length nums)%nat) by (eapply lookup_lt_Some; eauto).
  destruct (lookup_lt_is_Some_2 (CARDS cfg) index) as [card Hcard]; [lia |].
  destruct (lookup_lt_is_Some_2 (VALUE cfg) index) as [v Hv]; [lia |].
  destruct (lookup_lt_is_Some_2 (CARDS_COUNT cfg) index) as [w Hw]; [lia |].
  destruct (hit_ret self l count double index h nums c card v w)
    as (self' & Hhit & _); auto using choice_check_ok.
  { apply choice_check_ok; [split; assumption | assumption]. }
  exists self', (fresh (dom h)), (count + w),
    (<[fresh (dom h) := <[index := c - 1]> nums]> h), (<[index := c - 1]> nums), c.
  split; [exact Hhit |].
  split; [apply lookup_insert_eq |].
  split; [rewrite (py_sum_insert nums index c) by exact Hc; lia |].
  split; [| auto].
  apply Forall_insert; [exact Hall | lia].
Qed.

(** C5. From a deck with one count per rank, none negative, and a
    positive total, a draw of any rank that can be drawn returns a deck
    whose total is one less and in which no count is negative: the count
    of the drawn rank, which was at least 1, went down by one and the
    other counts are as they were. *)
Theorem hit_removes_one_card self l count double index h nums :
  settings_wf cfg ->
  h !! l = Some nums ->
  deck_wf cfg nums ->
  0 < py_sum nums ->
  sampled nums index ->
  exists self' l' count' h' nums' c,
    hit cfg self l count double index h = (Ret (self', (l', count')), h') /\
    h' !! l' = Some nums' /\
    py_sum nums' = py_sum nums - 1 /\
    Forall (fun c => 0 <= c) nums' /\
    nums !! index = Some c /\ 1 <= c /\ nums' = <[index := c - 1]> nums.
Proof. apply hit_on_deck. Qed.

(** C9. On a deck with one count per rank and none negative, [hit] fails
    whatever the draw exactly when the total is 0, with a division by
    zero when the list of counts is not empty; when the total is
    positive, a draw of any rank that can be drawn goes through and
    returns the updated counts and the updated running count: the counts
    are a new list of the store, equal to the supplied counts with the
    count of the drawn rank, which was at least 1, one less, so again one
    count per rank, none negative, with a total one less; the supplied
    list is as it was; and the running count has gone up by the weight of
    the drawn rank. *)
Theorem hit_fails_iff_no_card_left self l count double h nums :
  settings_wf cfg ->
  h !! l = Some nums ->
  deck_wf cfg nums ->
  (py_sum nums = 0 <->
     forall index, exists e, (hit cfg self l count double index h).1 = Raise e) /\
  (py_sum nums = 0 -> nums <> [] ->
     forall index, (hit cfg self l count double index h).1 = Raise ZeroDivisionError) /\
  (0 < py_sum nums ->
     forall index, sampled nums index ->
       exists self' l' count' h' c w,
         hit cfg self l count double index h = (Ret (self', (l', count')), h') /\
         nums !! index = Some c /\ 1 <= c /\
         CARDS_COUNT cfg !! index = Some w /\
         count' = count + w /\
         h !! l' = None /\
         h' = <[l' := <[index := c - 1]> nums]> h /\
         h' !! l' = Some (<[index := c - 1]> nums) /\
         h' !! l = Some nums /\
         py_sum (<[index := c - 1]> nums) = py_sum nums - 1 /\
         deck_wf cfg (<[index := c - 1]> nums)).
Proof.
  intros Hwf Hl Hdeck.
  assert (Hfail : py_sum nums = 0 -> forall index, exists e,
             (hit cfg self l count double index h).1 = Raise e /\
             (nums <> [] -> e = ZeroDivisionError)).
  { intros Hs index. destruct (choice_check_empty nums Hs) as (e & He & Hdiv).
    exists e. split; [| exact Hdiv].
    unfold hit, mbind, M_bind, load, lift. rewrite Hl, He. reflexivity. }
  assert (Hok : 0 < py_sum nums -> forall index, sampled nums index ->
             exists self' l' count' h' c w,
               hit cfg self l count double index h = (Ret (self', (l', count')), h') /\
               nums !! index = Some c /\ 1 <= c /\
               CARDS_COUNT cfg !! index = Some w /\
               count' = count + w /\
               h !! l' = None /\
               h' = <[l' := <[index := c - 1]> nums]> h /\
               h' !! l' = Some (<[index := c - 1]> nums) /\
               h' !! l = Some nums /\
               py_sum (<[index := c - 1]> nums) = py_sum nums - 1 /\
               deck_wf cfg (<[index := c - 1]> nums)).
  { intros Hs index Hsam.
    destruct Hwf as [Hval Hcnt]. destruct Hdeck as [Hlen Hall].
    destruct (sampled_count nums index Hall Hsam) as (c & Hc & Hc1 & _).
    assert (Hi : (index < length nums)%nat) by (eapply lookup_lt_Some; eauto).
    destruct (lookup_lt_is_Some_2 (CARDS cfg) index) as [card Hcard]; [lia |].
    destruct (lookup_lt_is_Some_2 (VALUE cfg) index) as [v Hv]; [lia |].
    destruct (lookup_lt_is_Some_2 (CARDS_COUNT cfg) index) as [w Hw]; [lia |].
    destruct (hit_ret self l count double index h nums c card v w)
      as (self' & Hhit & _); auto.
    { apply choice_check_ok; [split; assumption | assumption]. }
    assert (Hnew : h !! fresh (dom h) = None)
      by (apply not_elem_of_dom, is_fresh).
    exists self', (fresh (dom h)), (count + w),
      (<[fresh (dom h) := <[index := c - 1]> nums]> h), c, w.
    split; [exact Hhit |].
    split; [exact Hc |]. split; [exact Hc1 |]. split; [exact Hw |].
    split; [reflexivity |]. split; [exact Hnew |]. split; [reflexivity |].
    split; [apply lookup_insert_eq |].
    split; [rewrite lookup_insert_ne by congruence; exact Hl |].
    split; [rewrite (py_sum_insert nums index c) by exact Hc; lia |].
    split; [rewrite length_insert; exact Hlen |].
    apply Forall_insert; [exact Hall | lia]. }
  split; [split |split].
  - intros Hs index. destruct (Hfail Hs index) as (e & He & _). eauto.
  - intros Hall.
    destruct Hdeck as [_ Hnn]. pose proof (py_sum_nonneg nums Hnn) as Hge.
    destruct (decide (py_sum nums = 0)) as [E | E]; [exact E | exfalso].
    destruct (sampled_exists nums Hnn) as [index Hsam]; [lia |].
    destruct (Hok ltac:(lia) index Hsam) as (self' & l' & count' & h' & c & w & Hret & _).
    destruct (Hall index) as [e He]. rewrite Hret in He. discriminate.
  - intros Hs Hne index. destruct (Hfail Hs index) as (e & He & Hdiv).
    rewrite He, (Hdiv Hne). reflexivity.
  - exact Hok.
Qed.

Lemma np_max_spec xs m :
  np_max xs = Ret m -> m ∈ xs /\ forall x, x ∈ xs -> x <= m.
Proof.
  destruct xs as [|x xs]; [discriminate |]. cbn. intros [= <-].
  assert (H : forall a, (fold_left Z.max xs a = a \/ fold_left Z.max xs a ∈ xs) /\
                        a <= fold_left Z.max xs a /\
                        forall y, y ∈ xs -> y <= fold_left Z.max xs a).
  { induction xs as [|y xs IH]; intros a; cbn.
    - split; [left; reflexivity | split; [lia |]]. intros y Hy. inversion Hy.
    - destruct (IH (Z.max a y)) as (Hin & Hle & Hall). split; [|split].
      + destruct Hin as [-> | Hin].
        * destruct (Z.max_spec a y) as [[_ ->] | [_ ->]]; [right; left | left; reflexivity].
        * right. right. exact Hin.
      + lia.
      + intros z Hz. apply elem_of_cons in Hz as [-> | Hz]; [lia | auto]. }
  destruct (H x) as (Hin & Hle & Hall). split.
  - destruct Hin as [-> | Hin]; [left | right; exact Hin].
  - intros y Hy. apply elem_of_cons in Hy as [-> | Hy]; [exact Hle | auto].
Qed.

(** The totals kept by a draw: the sums of a previous total and a value
    of the card that pass the bust check. *)
Lemma elem_of_new_possible self v T :
  T ∈ new_possible self v <->
  exists val1 val2, val1 ∈ possible self /\ val2 ∈ face_values v /\
    T = val1 + val2 /\ T <= 21 + (if is_dealer self then 1 else 0).
Proof.
  unfold new_possible, check_bust. destruct v as [v | vs]; cbn [face_values].
  - rewrite list_elem_of_bind. split.
    + intros (val1 & HT & H1). destruct (Z.leb_spec (val1 + v) (21 + (if is_dealer self then 1 else 0)));
        [| inversion HT].
      apply list_elem_of_singleton in HT as ->. exists val1, v.
      repeat split; [exact H1 | left | assumption].
    + intros (val1 & val2 & H1 & H2 & -> & Hle).
      apply list_elem_of_singleton in H2 as ->. exists val1. split; [| exact H1].
      destruct (Z.leb_spec (val1 + v) (21 + (if is_dealer self then 1 else 0))); [left | lia].
  - rewrite list_elem_of_bind. split.
    + intros (val1 & HT & H1). apply list_elem_of_bind in HT as (val2 & HT & H2).
      destruct (Z.leb_spec (val1 + val2) (21 + (if is_dealer self then 1 else 0)));
        [| inversion HT].
      apply list_elem_of_singleton in HT as ->. exists val1, val2. auto.
    + intros (val1 & val2 & H1 & H2 & -> & Hle). exists val1. split; [| exact H1].
      apply list_elem_of_bind. exists val2. split; [| exact H2].
      destruct (Z.leb_spec (val1 + val2) (21 + (if is_dealer self then 1 else 0))); [left | lia].
Qed.






End Draw.

(** ** Playing a strategy *)

Section Play.
  Variable cfg : settings.
  Implicit Types (self : participant) (h : heap) (nums : list Z).

(** The list returned by a draw is a new object holding the updated
    counts; the list passed in is still what it was. *)
Lemma hit_new_list self l count double index h self' l' count' h' :
  hit cfg self l count double index h = (Ret (self', (l', count')), h') ->
  h !! l' = None /\ l' <> l /\
  exists nums c w,
    h !! l = Some nums /\ h' !! l = Some nums /\
    nums !! index = Some c /\ CARDS_COUNT cfg !! index = Some w /\
    h' !! l' = Some (<[index := c - 1]> nums) /\ count' = count + w.
Proof.
  intros Hhit.
  destruct (hit_inv _ _ _ _ _ _ _ _ _ Hhit) as (nums & c & card & v & w & H1 & H2 & H3 & H4 & H5 & H6).
  destruct (hit_ret cfg self l count double index h nums c card v w H1 H2 H3 H4 H5 H6)
    as (s' & Hs' & _).
  rewrite Hs' in Hhit. injection Hhit as _ <- <- <-.
  assert (Hnone : h !! fresh (dom h) = None).
  { apply not_elem_of_dom. apply is_fresh. }
  split; [exact Hnone |].
  split; [intros E; rewrite E in Hnone; congruence |].
  exists nums, c, w. repeat split; try assumption.
  - rewrite lookup_insert_ne; [exact H1 | intros E; rewrite E in Hnone; congruence].
  - apply lookup_insert_eq.
Qed.

Lemma play_loop_unfold fuel draws self action l count dealer :
  play_loop cfg fuel draws self action l count dealer =
  if negb (String.eqb action "S") && negb (bust self) && active self then
    match fuel with
    | O => lift Timeout
    | S fuel' =>
        action' ← lift (lookup_action self dealer);
        if String.eqb action' "H" then
          r ← hit cfg self l count false (draws O);
          play_loop cfg fuel' (fun i => draws (S i)) r.1 action' r.2.1 r.2.2 dealer
        else if String.eqb action' "D" then
          r ← hit cfg self l count true (draws O);
          play_loop cfg fuel' (fun i => draws (S i)) r.1 action' r.2.1 r.2.2 dealer
        else
          play_loop cfg fuel' draws self action' l count dealer
    end
  else mret (self, (l, count)).
Proof. destruct fuel; reflexivity. Qed.

(** The loop leaves every list of the store as it was, and the list it
    returns is the one it was given or a new one. *)
Lemma play_loop_frame fuel :
  forall draws self action l count dealer h r h',
    play_loop cfg fuel draws self action l count dealer h = (r, h') ->
    (forall l0 xs, h !! l0 = Some xs -> h' !! l0 = Some xs) /\
    (forall self' l' count', r = Ret (self', (l', count')) -> l' = l \/ h !! l' = None).
Proof.
  induction fuel as [|fuel IH]; intros draws self action l count dealer h r h';
    rewrite play_loop_unfold;
    destruct (negb (String.eqb action "S") && negb (bust self) && active self).
  - intros [= <- <-]. split; [auto | discriminate].
  - intros [= <- <-]. split; [auto |]. intros ? ? ? [= _ <- _]. left; reflexivity.
  - unfold mbind at 1, M_bind, lift at 1.
    destruct (lookup_action self dealer) as [a| |];
      [| intros [= <- <-]; split; [auto | discriminate]..].
    assert (Hdraw : forall double,
      (r0 ← hit cfg self l count double (draws O);
       play_loop cfg fuel (fun i => draws (S i)) r0.1 a r0.2.1 r0.2.2 dealer) h = (r, h') ->
      (forall l0 xs, h !! l0 = Some xs -> h' !! l0 = Some xs) /\
      (forall self' l' count', r = Ret (self', (l', count')) -> l' = l \/ h !! l' = None)).
    { intros double. unfold mbind, M_bind.
      destruct (hit cfg self l count double (draws O) h) as [[[s1 [l1 c1]]| |] h1] eqn:Hhit;
        [| intros [= <- <-]; split; [eapply hit_frame; eauto | discriminate]..].
      cbn [fst snd]. intros Hrest.
      destruct (IH _ _ _ _ _ _ _ _ _ Hrest) as [Hfr Hloc].
      pose proof (hit_frame cfg _ _ _ _ _ _ _ _ Hhit) as Hfr1.
      destruct (hit_new_list _ _ _ _ _ _ _ _ _ _ Hhit) as (Hnone & _).
      split; [auto |].
      intros self' l' count' Hr. right.
      destruct (Hloc _ _ _ Hr) as [-> | Hn]; [exact Hnone |].
      destruct (h !! l') eqn:E; [| reflexivity].
      apply Hfr1 in E. congruence. }
    destruct (String.eqb a "H"); [apply Hdraw |].
    destruct (String.eqb a "D"); [apply Hdraw |].
    apply IH.
  - intros [= <- <-]. split; [auto |]. intros ? ? ? [= _ <- _]. left; reflexivity.
Qed.

Lemma play_strategy_frame fuel draws self l count dealer h r h' :
  play_strategy cfg fuel draws self l count dealer h = (r, h') ->
  (forall l0 xs, h !! l0 = Some xs -> h' !! l0 = Some xs) /\
  (forall self' l' count', r = Ret (self', (l', count')) -> h !! l' = None /\ l' <> l).
Proof.
  unfold play_strategy, mbind, M_bind, load, alloc.
  destruct (h !! l) as [nums|] eqn:Hl; [| intros [= <- <-]; split; [auto | discriminate]].
  intros Hloop. apply play_loop_frame in Hloop as [Hfr Hloc].
  assert (Hnone : h !! fresh (dom h) = None).
  { apply not_elem_of_dom. apply is_fresh. }
  assert (Hsub : forall l0 xs, h !! l0 = Some xs -> <[fresh (dom h) := nums]> h !! l0 = Some xs).
  { intros l0 xs H0. rewrite lookup_insert_ne; [exact H0 | congruence]. }
  split; [auto |].
  intros self' l' count' Hr.
  assert (Hn : h !! l' = None).
  { destruct (Hloc _ _ _ Hr) as [-> | Hn]; [exact Hnone |].
    destruct (h !! l') eqn:E; [| reflexivity]. apply Hsub in E. congruence. }
  split; [exact Hn | congruence].
Qed.

(** C10. A call of [hit], whatever its outcome, leaves the list of counts
    passed by the caller, like every other list of the store, as it was;
    the updated counts are in a new list and reach the caller, with the
    updated running count, only as the returned pair.  The same holds for
    a call of [play_strategy]. *)
Theorem hit_leaves_num_cards_unchanged :
  (forall self l count double index h r h',
     hit cfg self l count double index h = (r, h') ->
     (forall l0 xs, h !! l0 = Some xs -> h' !! l0 = Some xs) /\
     (forall self' l' count', r = Ret (self', (l', count')) ->
        h !! l' = None /\ l' <> l /\
        exists nums c w,
          h !! l = Some nums /\ h' !! l = Some nums /\
          nums !! index = Some c /\ CARDS_COUNT cfg !! index = Some w /\
          h' !! l' = Some (<[index := c - 1]> nums) /\ count' = count + w)) /\
  (forall fuel draws self l count dealer h r h',
     play_strategy cfg fuel draws self l count dealer h = (r, h') ->
     (forall l0 xs, h !! l0 = Some xs -> h' !! l0 = Some xs) /\
     (forall self' l' count', r = Ret (self', (l', count')) -> h !! l' = None /\ l' <> l)).
Proof.
  split.
  - intros self l count double index h r h' Hhit. split.
    + eapply hit_frame; eauto.
    + intros self' l' count' ->. eapply hit_new_list; eauto.
  - intros fuel draws self l count dealer h r h'. apply play_strategy_frame.
Qed.

Lemma fold_min_spec (xs : list Z) (a : Z) :
  fold_left Z.min xs a ∈ a :: xs /\ forall y, y ∈ a :: xs -> fold_left Z.min xs a <= y.
Proof.
  revert a. induction xs as [|x xs IH]; intros a; cbn.
  - split; [left |]. intros y Hy. apply list_elem_of_singleton in Hy. lia.
  - destruct (IH (Z.min a x)) as [Hin Hle]. split.
    + apply elem_of_cons in Hin as [-> | Hin].
      * destruct (Z.min_spec a x) as [[_ ->] | [_ ->]]; [left | right; left].
      * right. right. exact Hin.
    + intros y Hy.
      assert (Hmin : fold_left Z.min xs (Z.min a x) <= Z.min a x) by (apply Hle; left).
      apply elem_of_cons in Hy as [-> | Hy]; [lia |].
      apply elem_of_cons in Hy as [-> | Hy]; [lia |].
      apply Hle. right. exact Hy.
Qed.

Lemma face_values_positive index v val2 :
  Forall face_positive (VALUE cfg) ->
  VALUE cfg !! index = Some v -> val2 ∈ face_values v -> 1 <= val2.
Proof.
  intros Hall Hv Hin.
  assert (Hp : face_positive v) by (eapply (proj1 (Forall_lookup _ _) Hall); eauto).
  destruct v as [v | vs]; cbn in *.
  - apply list_elem_of_singleton in Hin as ->. exact Hp.
  - eapply (proj1 (Forall_forall _ _) Hp); eauto.
Qed.

(** When every face value is at least 1, each total left after a draw is
    greater than the total it comes from, and at most 22. *)
Lemma hit_raises_totals self l count double index h self' r h' :
  Forall face_positive (VALUE cfg) ->
  hit cfg self l count double index h = (Ret (self', r), h') ->
  forall T, T ∈ possible self' ->
    exists val1, val1 ∈ possible self /\ val1 < T /\ T <= 22.
Proof.
  intros Hpos Hhit T HT.
  destruct (hit_inv _ _ _ _ _ _ _ _ _ Hhit) as (nums & c & card & v & w & H1 & H2 & H3 & H4 & H5 & H6).
  destruct (hit_ret cfg self l count double index h nums c card v w H1 H2 H3 H4 H5 H6)
    as (s' & Hs' & Hposs & _).
  rewrite Hs' in Hhit. injection Hhit as <- _ _.
  rewrite Hposs, elem_of_remove_dups in HT.
  apply elem_of_new_possible in HT as (val1 & val2 & Hv1 & Hv2 & -> & Hle).
  pose proof (face_values_positive _ _ _ Hpos H4 Hv2).
  exists val1. split; [exact Hv1 |]. destruct (is_dealer self); lia.
Qed.

(** A draw ends in a bust or leaves fewer draws to go. *)
Lemma hit_hits_left self l count double index h self' r h' :
  Forall face_positive (VALUE cfg) ->
  hit cfg self l count double index h = (Ret (self', r), h') ->
  bust self' = true \/ (hits_left self' < hits_left self)%nat.
Proof.
  intros Hpos Hhit.
  pose proof (hit_raises_totals _ _ _ _ _ _ _ _ _ Hpos Hhit) as Hup.
  destruct (hit_inv _ _ _ _ _ _ _ _ _ Hhit) as (nums & c & card & v & w & H1 & H2 & H3 & H4 & H5 & H6).
  destruct (hit_ret cfg self l count double index h nums c card v w H1 H2 H3 H4 H5 H6)
    as (s' & Hs' & Hposs & Hbust & _).
  rewrite Hs' in Hhit. injection Hhit as <- _ _.
  rewrite Hbust. destruct (decide (new_possible self v = [])) as [E | E]; [left; reflexivity |].
  right. unfold hits_left.
  destruct (possible s') as [|x' rest'] eqn:E';
    [exfalso; apply E, remove_dups_nil_inv; congruence |].
  destruct (fold_min_spec rest' x') as [Hin' _].
  destruct (Hup _ Hin') as (val1 & Hv1 & Hlt & Hle).
  destruct (possible self) as [|x rest]; [inversion Hv1 |].
  destruct (fold_min_spec rest x) as [_ Hmin].
  specialize (Hmin _ Hv1). lia.
Qed.

Lemma hit_double_inactive self l count index h self' r h' :
  hit cfg self l count true index h = (Ret (self', r), h') -> active self' = false.
Proof.
  intros Hhit.
  destruct (hit_inv _ _ _ _ _ _ _ _ _ Hhit) as (nums & c & card & v & w & H1 & H2 & H3 & H4 & H5 & H6).
  destruct (hit_ret cfg self l count true index h nums c card v w H1 H2 H3 H4 H5 H6)
    as (s' & Hs' & _ & _ & _ & _ & _ & Hact & _).
  rewrite Hs' in Hhit. injection Hhit as <- _ _. exact Hact.
Qed.

Lemma hit_strategy self l count double index h self' r h' :
  hit cfg self l count double index h = (Ret (self', r), h') ->
  soft_strategy self' = soft_strategy self /\ hard_strategy self' = hard_strategy self.
Proof.
  intros Hhit.
  destruct (hit_inv _ _ _ _ _ _ _ _ _ Hhit) as (nums & c & card & v & w & H1 & H2 & H3 & H4 & H5 & H6).
  destruct (hit_ret cfg self l count double index h nums c card v w H1 H2 H3 H4 H5 H6)
    as (s' & Hs' & _ & _ & _ & _ & _ & _ & _ & _ & Hsoft & Hhard & _).
  rewrite Hs' in Hhit. injection Hhit as <- _ _. auto.
Qed.

Lemma hit_never_times_out self l count double index h :
  (hit cfg self l count double index h).1 <> Timeout.
Proof.
  unfold hit, mbind, M_bind, load, lift, alloc, store, py_index, mret, M_ret.
  destruct (h !! l) as [nums|]; [| discriminate].
  destruct (choice_check cfg nums) as [[]| |] eqn:Hc; [| discriminate |].
  2:{ exfalso. exact (choice_check_never_times_out cfg nums Hc). }
  destruct (CARDS cfg !! index); [| discriminate].
  destruct (VALUE cfg !! index); [| discriminate].
  destruct (nums !! index); [| discriminate].
  destruct (CARDS_COUNT cfg !! index); [| discriminate].
  match goal with
  | |- context [if ?b then Ret 0 else np_max ?xs] =>
      destruct b; [| destruct xs; cbn [np_max]; [discriminate |]]
  end;
    (destruct double; [destruct (num_mul_two (bet self)) as [b' ->] |]; discriminate).
Qed.

Lemma lookup_action_value self dealer a :
  actions_only (soft_strategy self) -> actions_only (hard_strategy self) ->
  lookup_action self dealer = Ret a ->
  a = "H"%string \/ a = "S"%string \/ a = "D"%string.
Proof.
  intros Hsoft Hhard. unfold lookup_action.
  destruct (1 <? length (possible self))%nat.
  - destruct (soft_strategy self) as [t|] eqn:Et; [| discriminate].
    destruct (t _ _) eqn:Ea; [| discriminate]. intros [= <-]. eapply Hsoft; eauto.
  - destruct (hard_strategy self) as [t|] eqn:Et; [| discriminate].
    destruct (t _ _) eqn:Ea; [| discriminate]. intros [= <-]. eapply Hhard; eauto.
Qed.

Lemma lookup_action_never_times_out self dealer : lookup_action self dealer <> Timeout.
Proof.
  unfold lookup_action.
  destruct (if (1 <? length (possible self))%nat then soft_strategy self else hard_strategy self)
    as [t|]; [| discriminate].
  destruct (t _ _); discriminate.
Qed.

(** The loop ends within [hits_left self] iterations after the first. *)
Lemma play_loop_terminates fuel :
  Forall face_positive (VALUE cfg) ->
  forall draws self action l count dealer h,
    actions_only (soft_strategy self) -> actions_only (hard_strategy self) ->
    (hits_left self < fuel)%nat ->
    (play_loop cfg fuel draws self action l count dealer h).1 <> Timeout.
Proof.
  intros Hpos. induction fuel as [|fuel IH];
    intros draws self action l count dealer h Hsoft Hhard Hfuel; [lia |].
  rewrite play_loop_unfold.
  destruct (negb (String.eqb action "S") && negb (bust self) && active self); [| discriminate].
  unfold mbind at 1, M_bind, lift at 1.
  destruct (lookup_action self dealer) as [a| |] eqn:Ha; [| discriminate |].
  2:{ exfalso. eapply lookup_action_never_times_out; eauto. }
  assert (Hstop : forall draws' s1 l1 c1 h1,
            bust s1 = true \/ active s1 = false \/ a = "S"%string ->
            (play_loop cfg fuel draws' s1 a l1 c1 dealer h1).1 <> Timeout).
  { intros draws' s1 l1 c1 h1 Hs1. rewrite play_loop_unfold.
    replace (negb (String.eqb a "S") && negb (bust s1) && active s1) with false; [discriminate |].
    destruct Hs1 as [-> | [-> | ->]]; cbn;
      rewrite ?andb_false_r; reflexivity. }
  destruct (lookup_action_value _ _ _ Hsoft Hhard Ha) as [-> | [-> | ->]]; cbn [String.eqb Ascii.eqb Bool.eqb].
  - (* Hit *)
    unfold mbind, M_bind.
    destruct (hit cfg self l count false (draws O) h) as [[[s1 [l1 c1]]| |] h1] eqn:Hhit;
      [| discriminate |].
    2:{ exfalso. eapply hit_never_times_out. rewrite Hhit. reflexivity. }
    cbn [fst snd].
    destruct (hit_strategy _ _ _ _ _ _ _ _ _ Hhit) as [Es Eh].
    destruct (hit_hits_left _ _ _ _ _ _ _ _ _ Hpos Hhit) as [Hb | Hlt].
    + apply Hstop. auto.
    + apply IH; [rewrite Es; exact Hsoft | rewrite Eh; exact Hhard | lia].
  - (* Stand *)
    apply Hstop. auto.
  - (* Double *)
    unfold mbind, M_bind.
    destruct (hit cfg self l count true (draws O) h) as [[[s1 [l1 c1]]| |] h1] eqn:Hhit;
      [| discriminate |].
    2:{ exfalso. eapply hit_never_times_out. rewrite Hhit. reflexivity. }
    cbn [fst snd]. apply Hstop. right. left.
    eapply hit_double_inactive; eauto.
Qed.

Lemma M_bind_lift {A B} (o : outcome A) (f : A -> M B) h :
  (lift o ≫= f) h =
  match o with
  | Ret a => f a h
  | Raise e => (Raise e, h)
  | Timeout => (Timeout, h)
  end.
Proof. destruct o; reflexivity. Qed.

(** Once the loop has ended, more fuel changes nothing. *)
Lemma play_loop_more_fuel fuel :
  forall draws self action l count dealer h,
    (play_loop cfg fuel draws self action l count dealer h).1 <> Timeout ->
    play_loop cfg (S fuel) draws self action l count dealer h
    = play_loop cfg fuel draws self action l count dealer h.
Proof.
  induction fuel as [|fuel IH]; intros draws self action l count dealer h.
  - rewrite (play_loop_unfold 1), (play_loop_unfold 0).
    destruct (negb (String.eqb action "S") && negb (bust self) && active self);
      [| reflexivity].
    intros H. exfalso. apply H. reflexivity.
  - rewrite (play_loop_unfold (S (S fuel))), (play_loop_unfold (S fuel)).
    destruct (negb (String.eqb action "S") && negb (bust self) && active self);
      [| reflexivity].
    rewrite !M_bind_lift.
    destruct (lookup_action self dealer) as [a| |]; try reflexivity.
    assert (Hdraw : forall double,
      ((r ← hit cfg self l count double (draws O);
        play_loop cfg fuel (fun i => draws (S i)) r.1 a r.2.1 r.2.2 dealer) h).1 <> Timeout ->
      (r ← hit cfg self l count double (draws O);
       play_loop cfg (S fuel) (fun i => draws (S i)) r.1 a r.2.1 r.2.2 dealer) h
      = (r ← hit cfg self l count double (draws O);
         play_loop cfg fuel (fun i => draws (S i)) r.1 a r.2.1 r.2.2 dealer) h).
    { intros double. unfold mbind, M_bind.
      destruct (hit cfg self l count double (draws O) h) as [[[s1 [l1 c1]]| |] h1];
        try reflexivity.
      cbn [fst snd]. apply IH. }
    destruct (String.eqb a "H"); [apply Hdraw |].
    destruct (String.eqb a "D"); [apply Hdraw |].
    apply IH.
Qed.

Lemma play_loop_fuel_stable fuel fuel' draws self action l count dealer h :
  (play_loop cfg fuel draws self action l count dealer h).1 <> Timeout ->
  (fuel <= fuel')%nat ->
  play_loop cfg fuel' draws self action l count dealer h
  = play_loop cfg fuel draws self action l count dealer h.
Proof.
  intros Hend Hle. induction Hle as [|fuel' Hle IH]; [reflexivity |].
  rewrite play_loop_more_fuel; [exact IH | rewrite IH; exact Hend].
Qed.

(** C8. When every face value is at least 1 and the cells of the two
    strategy tables hold only H, S or D, the loop of [play_strategy] ends
    after at most [hits_left self + 1] iterations, whatever is drawn: a
    Hit leaves only totals greater than those it started from, and none
    above 22, so that the hand busts or the strategy stands, and a Double
    clears [active].  The outcome is then the returned pair, or the
    exception of a failed lookup or of a failed draw. *)
Theorem play_strategy_terminates self dealer :
  Forall face_positive (VALUE cfg) ->
  actions_only (soft_strategy self) ->
  actions_only (hard_strategy self) ->
  (forall l count double index h self' r h',
     hit cfg self l count double index h = (Ret (self', r), h') ->
     forall T, T ∈ possible self' -> exists val1, val1 ∈ possible self /\ val1 < T /\ T <= 22) /\
  (forall fuel draws l count h,
     (hits_left self < fuel)%nat ->
     (play_strategy cfg fuel draws self l count dealer h).1 <> Timeout /\
     forall fuel', (fuel <= fuel')%nat ->
       play_strategy cfg fuel' draws self l count dealer h
       = play_strategy cfg fuel draws self l count dealer h).
Proof.
  intros Hpos Hsoft Hhard. split.
  - intros l count double index h self' r h'. apply hit_raises_totals. exact Hpos.
  - intros fuel draws l count h Hfuel.
    unfold play_strategy, mbind, M_bind, load, alloc.
    destruct (h !! l) as [nums|]; [| split; [discriminate | reflexivity]].
    assert (Hend : (play_loop cfg fuel draws self "" (fresh (dom h)) count dealer
                      (<[fresh (dom h) := nums]> h)).1 <> Timeout)
      by (apply play_loop_terminates; assumption).
    split; [exact Hend |].
    intros fuel' Hle. apply play_loop_fuel_stable; assumption.
Qed.

End Play.

(** ** Bet sizing in counting mode *)

Section Betting.
  Variable cfg : settings.

Lemma num_geb_ltb x y : num_geb x y = true -> num_ltb x y = false.
Proof.
  unfold num_geb, num_ltb. destruct (num_compare x y) as [[]|]; congruence.
Qed.

(** Only a NaN is neither below an int nor at least as large. *)
Lemma num_not_geb_ltb x z :
  x <> PFloat S754_nan -> num_geb x (PInt z) = false -> num_ltb x (PInt z) = true.
Proof.
  unfold num_geb, num_ltb. intros Hx.
  destruct x as [a | f]; cbn.
  - destruct (a ?= z); congruence.
  - destruct f as [s | s | | s m e]; cbn; try congruence.
    + destruct z; congruence.
    + destruct s; congruence.
    + destruct (if 0 <=? e then _ else _); congruence.
Qed.

Lemma float_of_int_overflow_only z : overflow_only (float_of_int z).
Proof.
  unfold float_of_int. destruct (binary_normalize prec emax z 0 false); cbn; auto.
Qed.

Lemma int_truediv_overflow_only a b : b <> 0 -> overflow_only (int_truediv a b).
Proof.
  intros Hb. unfold int_truediv.
  destruct (Z.eqb_spec b 0); [contradiction |].
  destruct (a =? 0); [exact I |].
  destruct (SFdiv_core_binary prec emax (Z.abs a) 0 (Z.abs b) 0) as [[q e] l].
  destruct (binary_round_aux prec emax _ q e l); cbn; auto.
Qed.

Lemma overflow_only_bind {A B} (o : outcome A) (f : A -> outcome B) :
  overflow_only o -> (forall a, o = Ret a -> overflow_only (f a)) -> overflow_only (o ≫= f).
Proof. destruct o; cbn; auto. Qed.

Lemma num_mul_float_int f z : overflow_only (num_mul (PFloat f) (PInt z)).
Proof.
  cbn. pose proof (float_of_int_overflow_only z) as H.
  destruct (float_of_int z); cbn in *; auto.
Qed.

Lemma num_sub_float_int f z : overflow_only (num_sub (PFloat f) (PInt z)).
Proof.
  cbn. pose proof (float_of_int_overflow_only z) as H.
  destruct (float_of_int z); cbn in *; auto.
Qed.

(** With a deck total that is not 0 the first quotient is a float, and so
    is everything computed from it. *)
Lemma trueCount_float rc total cpd n tc :
  trueCount rc total cpd n = Ret tc -> exists f, tc = PFloat f.
Proof.
  unfold trueCount. cbn.
  destruct (int_truediv rc total) as [q| |]; cbn; try discriminate.
  destruct (float_of_int cpd) as [g| |]; cbn; try discriminate.
  destruct (float_of_int n) as [k| |]; cbn; try discriminate.
  intros [= <-]. eauto.
Qed.

Lemma policy_overflow_only rc total :
  total <> 0 -> overflow_only (policy cfg rc total).
Proof.
  intros Ht. unfold policy, trueCount, betValue.
  pose proof (int_truediv_overflow_only rc total Ht) as H1.
  cbn [num_truediv]. destruct (int_truediv rc total) as [q| |]; cbn in H1 |- *; auto.
  repeat match goal with
    | |- context [float_of_int ?z] =>
        let H := fresh in
        pose proof (float_of_int_overflow_only z) as H;
        destruct (float_of_int z); cbn in H |- *; auto
    end.
Qed.

Lemma outcome_bind_ret {A B} (a : A) (f : A -> outcome B) : (Ret a ≫= f) = f a.
Proof. reflexivity. Qed.

Lemma num_mul_float_int_ret f z g :
  float_of_int z = Ret g -> num_mul (PFloat f) (PInt z) = Ret (PFloat (SFmul prec emax f g)).
Proof. intros H. unfold num_mul, to_float. rewrite H. reflexivity. Qed.

Lemma num_sub_float_int_ret f z g :
  float_of_int z = Ret g -> num_sub (PFloat f) (PInt z) = Ret (PFloat (SFsub prec emax f g)).
Proof. intros H. unfold num_sub, to_float. rewrite H. reflexivity. Qed.

(** The policy gives a bet value when the running count and the three
    constants are below [2^1023] in size. *)
Lemma policy_ret rc total :
  total <> 0 ->
  Z.abs rc < 2 ^ 1023 ->
  Z.abs (N_CARD_EACH_DECK cfg) < 2 ^ 1023 ->
  Z.of_nat (length (CARDS cfg)) < 2 ^ 1023 ->
  Z.abs (MIN_BET cfg) < 2 ^ 1023 ->
  exists bv, policy cfg rc total = Ret bv.
Proof.
  intros Ht Hrc Hn Hk Hm. unfold policy, trueCount, betValue.
  destruct (int_truediv_ret rc total Ht Hrc) as (q & Hq & _).
  destruct (float_of_int_ret _ Hn) as (g & Hg & _).
  destruct (float_of_int_ret (Z.of_nat (length (CARDS cfg))) ltac:(lia)) as (k & Hk' & _).
  destruct (float_of_int_ret 1 ltac:(lia)) as (one & Hone & _).
  destruct (float_of_int_ret _ Hm) as (m & Hm' & _).
  assert (E : num_truediv (PInt rc) (PInt total) = Ret (PFloat q))
    by (unfold num_truediv; rewrite Hq; reflexivity).
  rewrite E, outcome_bind_ret.
  rewrite (num_mul_float_int_ret _ _ _ Hg), outcome_bind_ret.
  rewrite (num_mul_float_int_ret _ _ _ Hk'), outcome_bind_ret.
  rewrite (num_sub_float_int_ret _ _ _ Hone), outcome_bind_ret.
  rewrite (num_mul_float_int_ret _ _ _ Hm'), outcome_bind_ret.
  eauto.
Qed.

Lemma set_bet_counting_policy self count nums :
  set_bet_counting cfg self count nums =
  (bv ← policy cfg count (py_sum nums);
   Ret (with_bet self (if num_ltb bv (PInt (MIN_BET cfg)) then PInt 0 else bv))).
Proof.
  unfold set_bet_counting, bet_value, true_count, policy, trueCount, betValue.
  destruct (num_truediv (PInt count) (PInt (py_sum nums))) as [q| |]; cbn; try reflexivity.
  destruct (num_mul q (PInt (N_CARD_EACH_DECK cfg))) as [t| |]; cbn; try reflexivity.
  destruct (num_mul t (PInt (Z.of_nat (length (CARDS cfg))))) as [tc| |]; cbn; try reflexivity.
  destruct (num_sub tc (PInt 1)) as [d| |]; cbn; try reflexivity.
  destruct (num_mul d (PInt (MIN_BET cfg))) as [x| |]; cbn; try reflexivity.
  destruct (num_ltb (num_max x (PInt 0)) (PInt (MIN_BET cfg))); reflexivity.
Qed.

End Betting.

(** ** The theorems on the sample shoe *)

Section Samples.

Lemma sample_settings_wf : settings_wf sample_settings.
Proof. split; reflexivity. Defined.

Lemma sample_deck_wf : deck_wf sample_settings sample_deck.
Proof.
  split; [reflexivity |]. unfold sample_deck. cbn.
  repeat constructor; discriminate.
Defined.

Lemma sample_deck_sampled : sampled sample_deck 9.
Proof. exists 8. split; reflexivity. Defined.

Lemma sample_faces_positive : Forall face_positive (VALUE sample_settings).
Proof. cbn. repeat constructor; cbn; try discriminate. Defined.

Lemma sample_table_actions : actions_only (Some sample_table).
Proof.
  intros t col row a [= <-]. unfold sample_table.
  destruct (row <? 17); intros [= <-]; auto.
Defined.

(** Drawing a 10 from the sample shoe leaves 103 cards. *)
Lemma hit_removes_one_card_sample :
  exists self' l' count' h' nums' c,
    hit sample_settings (init "p") 1%positive 0 false 9 sample_heap
      = (Ret (self', (l', count')), h') /\
    h' !! l' = Some nums' /\
    py_sum nums' = py_sum sample_deck - 1 /\
    Forall (fun c => 0 <= c) nums' /\
    sample_deck !! 9%nat = Some c /\ 1 <= c /\ nums' = <[9%nat := c - 1]> sample_deck.
Proof.
  apply (hit_removes_one_card sample_settings (init "p") 1%positive 0 false 9%nat
           sample_heap sample_deck).
  - exact sample_settings_wf.
  - reflexivity.
  - exact sample_deck_wf.
  - reflexivity.
  - exact sample_deck_sampled.
Defined.

(** The sample shoe has cards left, so a draw of a 10 goes through: it
    returns a new list with seven 10s, 103 cards in all, and the running
    count goes from 0 to -1. *)
Lemma hit_fails_iff_no_card_left_sample :
  exists self' l' count' h' c w,
    hit sample_settings (init "p") 1%positive 0 false 9 sample_heap
      = (Ret (self', (l', count')), h') /\
    sample_deck !! 9%nat = Some c /\ 1 <= c /\
    CARDS_COUNT sample_settings !! 9%nat = Some w /\
    count' = 0 + w /\
    sample_heap !! l' = None /\
    h' = <[l' := <[9%nat := c - 1]> sample_deck]> sample_heap /\
    h' !! l' = Some (<[9%nat := c - 1]> sample_deck) /\
    h' !! 1%positive = Some sample_deck /\
    py_sum (<[9%nat := c - 1]> sample_deck) = py_sum sample_deck - 1 /\
    deck_wf sample_settings (<[9%nat := c - 1]> sample_deck).
Proof.
  apply (proj2 (proj2 (hit_fails_iff_no_card_left sample_settings (init "p") 1%positive 0 false
                         sample_heap sample_deck sample_settings_wf eq_refl sample_deck_wf))).
  - reflexivity.
  - exact sample_deck_sampled.
Defined.


(** A participant following the sample table from an empty hand is done
    within 25 iterations, whatever is drawn. *)
Lemma play_strategy_terminates_sample :
  (play_strategy sample_settings 25 (fun _ => 9%nat) sample_player 1%positive 0 None
     sample_heap).1 <> Timeout.
Proof.
  apply (proj1 (proj2 (play_strategy_terminates sample_settings sample_player None
                         sample_faces_positive sample_table_actions sample_table_actions)
                 25%nat (fun _ => 9%nat) 1%positive 0 sample_heap ltac:(vm_compute; lia))).
Defined.

(** A draw from the sample shoe leaves the shoe at location 1 as it was. *)
Lemma hit_leaves_num_cards_unchanged_sample :
  (hit sample_settings (init "p") 1%positive 0 false 9 sample_heap).2 !! 1%positive
    = Some sample_deck.
Proof.
  apply (proj1 (proj1 (hit_leaves_num_cards_unchanged sample_settings)
                  (init "p") 1%positive 0 false 9%nat sample_heap _ _
                  (surjective_pairing _))
           1%positive sample_deck eq_refl).
Defined.

End Samples.

(** * Further properties *)

(** ** Settlement: histories, failures and the cases of the verdict *)

Section SettlementMore.
  Variable cfg : settings.
  Implicit Types p d self dealer : participant.

Lemma final_result_range p d :
  final_result p d = -1 \/ final_result p d = 0 \/
  final_result p d = 1 \/ final_result p d = 2.
Proof.
  rewrite final_result_cases.
  repeat match goal with |- context [if ?b then _ else _] => destruct b end; auto.
Qed.

(** A settlement that returns has appended the value of the hand and one
    entry of winnings, and left the hand as [reset] leaves it. *)
Lemma result_ret self dealer self' :
  result self dealer = Ret self' ->
  exists w,
    winnings (final_result self dealer) (bet self) = Ret [w] /\
    self' = reset {| ptype := ptype self;
                     soft_strategy := soft_strategy self;
                     hard_strategy := hard_strategy self;
                     cards := cards self;
                     possible := possible self;
                     value := value self;
                     bet := bet self;
                     active := active self;
                     bust := bust self;
                     runV := runV self ++ [value self];
                     runW := runW self ++ [w] |} false.
Proof.
  unfold result.
  destruct (final_result_range self dealer) as [E | [E | [E | E]]]; rewrite E; cbn.
  - intros [= <-]. eauto.
  - intros [= <-]. eauto.
  - intros [= <-]. eauto.
  - destruct (num_mul (bet self) (PFloat one_and_half)) as [w| |]; cbn; try discriminate.
    intros [= <-]. eauto.
Qed.



Lemma num_mul_float_ret b g :
  bet_in_range b -> exists w, num_mul b (PFloat g) = Ret w.
Proof.
  destruct b as [z | f]; cbn [bet_in_range]; intros Hb.
  - destruct (float_of_int_ret z Hb) as (f & Hf & _).
    unfold num_mul, to_float. rewrite Hf. cbn. eauto.
  - cbn. eauto.
Qed.

(** X2. The only way for [result] to fail is the product [bet * 1.5] of
    the blackjack case overflowing: it raises nothing but [OverflowError],
    and it returns whenever the verdict is not a blackjack, and whenever
    the bet is a float or an int below [2^1023] in size. *)
Theorem result_fails_only_by_overflow self dealer :
  overflow_only (result self dealer) /\
  (final_result self dealer <> 2 -> exists self', result self dealer = Ret self') /\
  (bet_in_range (bet self) -> exists self', result self dealer = Ret self').
Proof.
  unfold result.
  destruct (final_result_range self dealer) as [E | [E | [E | E]]]; rewrite E; cbn;
    try (split; [exact I | split; eauto]).
  split; [| split].
  - pose proof (float_of_int_overflow_only) as Hov.
    destruct (bet self) as [z | f]; cbn.
    + specialize (Hov z). destruct (float_of_int z); cbn in *; auto.
    + exact I.
  - congruence.
  - intros Hb. destruct (num_mul_float_ret _ one_and_half Hb) as [w Hw].
    rewrite Hw. cbn. eauto.
Qed.

(** X3. When the two values differ, the comparison alone decides: the
    participant is recorded as losing the bet against a greater dealer
    value and as winning it against a smaller one, whatever the bust
    flags, the number of cards and the earlier rules say. *)
Theorem result_decided_by_values_when_different p d :
  value p <> value d ->
  runW <$> result p d
    = Ret (runW p ++ [if value p <? value d then num_neg (bet p) else bet p]).
Proof.
  intros Hne. apply result_runW.
  destruct (Z.ltb_spec (value p) (value d)).
  - rewrite final_result_dealer_higher by assumption. reflexivity.
  - rewrite final_result_dealer_lower by lia. reflexivity.
Qed.

(** X4. The verdict is a blackjack, paid 1.5 times the bet, exactly when
    the participant holds two cards worth 21 and the dealer's value is 21
    as well. *)
Theorem blackjack_verdict_iff p d :
  final_result p d = 2 <->
  length (cards p) = 2%nat /\ value p = 21 /\ value d = 21.
Proof.
  rewrite final_result_cases.
  destruct (Z.ltb_spec (value p) (value d)); [split; [discriminate | lia] |].
  destruct (Z.ltb_spec (value d) (value p)); [split; [discriminate | lia] |].
  assert (E : value d = value p) by lia. rewrite E.
  destruct (Z.eqb_spec (value p) 22); [split; [discriminate | lia] |].
  destruct (Nat.eqb_spec (length (cards p)) 2), (Z.eqb_spec (value p) 21);
    cbn [andb orb]; try (split; [auto; discriminate | auto; lia]);
    destruct (5 <=? length (cards p))%nat; try (split; [discriminate | lia]);
    destruct (bust p); try (split; [discriminate | lia]);
    destruct (bust d); split; try discriminate; lia.
Qed.

End SettlementMore.

(** ** Hands: consistency, busts and doubles *)

Section HandsMore.
  Variable cfg : settings.
  Implicit Types (self dealer : participant) (h : heap).

(** Everything a returned draw tells. *)
Lemma hit_ret_inv self l count double index h self' l' count' h' :
  hit cfg self l count double index h = (Ret (self', (l', count')), h') ->
  exists nums c card v w,
    h !! l = Some nums /\ nums !! index = Some c /\
    CARDS cfg !! index = Some card /\ VALUE cfg !! index = Some v /\
    CARDS_COUNT cfg !! index = Some w /\
    l' = fresh (dom h) /\ count' = count + w /\
    h' = <[fresh (dom h) := <[index := c - 1]> nums]> h /\
    possible self' = remove_dups (new_possible self v) /\
    bust self' = (if decide (new_possible self v = []) then true else bust self) /\
    (bust self' = true -> value self' = 0) /\
    (bust self' = false -> np_max (possible self') = Ret (value self')) /\
    cards self' = cards self ++ [card] /\
    active self' = (if double then false else active self) /\
    (double = false -> bet self' = bet self) /\
    ptype self' = ptype self /\
    soft_strategy self' = soft_strategy self /\
    hard_strategy self' = hard_strategy self /\
    runV self' = runV self /\ runW self' = runW self.
Proof.
  intros Hhit.
  destruct (hit_inv _ _ _ _ _ _ _ _ _ Hhit)
    as (nums & c & card & v & w & H1 & H2 & H3 & H4 & H5 & H6).
  destruct (hit_ret cfg self l count double index h nums c card v w H1 H2 H3 H4 H5 H6)
    as (s' & Hs' & Hrest).
  rewrite Hs' in Hhit. injection Hhit as <- <- <- <-.
  exists nums, c, card, v, w. repeat (split; [assumption || reflexivity |]).
  exact Hrest.
Qed.

Lemma is_dealer_ptype self self' : ptype self' = ptype self -> limit self' = limit self.
Proof. unfold limit, is_dealer. intros ->. reflexivity. Qed.

Lemma hit_keeps_hand_consistent self l count double index h self' r h' :
  hand_consistent self ->
  hit cfg self l count double index h = (Ret (self', r), h') ->
  hand_consistent self'.
Proof.
  intros (_ & _ & Hb & _) Hhit. destruct r as [l' count'].
  destruct (hit_ret_inv _ _ _ _ _ _ _ _ _ _ Hhit)
    as (nums & c & card & v & w & _ & _ & _ & _ & _ & _ & _ & _ &
        Hposs & Hbust & Hv0 & Hmax & _ & _ & _ & Hpt & _).
  unfold hand_consistent. rewrite Hposs, (is_dealer_ptype _ _ Hpt).
  split; [apply NoDup_remove_dups |].
  split.
  { intros T HT. apply elem_of_remove_dups, elem_of_new_possible in HT
      as (val1 & val2 & _ & _ & _ & Hle). exact Hle. }
  split.
  - intros Hb'. split; [| auto].
    rewrite Hbust in Hb'. destruct (decide (new_possible self v = [])) as [E | E].
    + rewrite E. reflexivity.
    + destruct (Hb Hb') as [Hnil _]. exfalso. apply E.
      unfold new_possible. rewrite Hnil. destruct v; reflexivity.
  - intros Hb'. rewrite <- Hposs. apply np_max_spec. auto.
Qed.

Lemma set_bet_counting_hand self count nums self' :
  set_bet_counting cfg self count nums = Ret self' ->
  possible self' = possible self /\ bust self' = bust self /\
  value self' = value self /\ ptype self' = ptype self.
Proof.
  unfold set_bet_counting. destruct (bet_value cfg count nums) as [bv| |]; cbn; try discriminate.
  destruct (num_ltb bv (PInt (MIN_BET cfg))); intros [= <-]; repeat split; reflexivity.
Qed.

Lemma reset_hand_consistent self running : hand_consistent (reset self running).
Proof.
  unfold hand_consistent, limit. cbn.
  split; [apply NoDup_singleton |].
  split.
  { intros T HT. apply list_elem_of_singleton in HT as ->.
    match goal with |- context [if ?b then _ else _] => destruct b end; lia. }
  split; [discriminate |].
  intros _. split; [left |]. intros T HT. apply list_elem_of_singleton in HT. lia.
Qed.

Lemma reachable_consistent self : reachable cfg self -> hand_consistent self.
Proof.
  intros Hr.
  { induction Hr as [pt | self running _ _ | self b _ IH | self count nums self' _ IH Hset
                    | self soft hard _ IH | self l count double index h self' r h' _ IH Hhit
                    | self dealer self' _ _ Hres | self dealer e _ IH _].
    - apply reset_hand_consistent.
    - apply reset_hand_consistent.
    - destruct b; exact IH.
    - destruct (set_bet_counting_hand _ _ _ _ Hset) as (Hp & Hb & Hv & Hpt).
      unfold hand_consistent. rewrite Hp, Hb, Hv, (is_dealer_ptype _ _ Hpt). exact IH.
    - exact IH.
    - eapply hit_keeps_hand_consistent; eauto.
    - destruct (result_ret _ _ _ Hres) as (w & _ & ->). apply reset_hand_consistent.
    - exact IH. }
Qed.


(** X6. A bust hand stays bust: a further draw still takes a card from
    the deck and adds it to the hand, but leaves no possible total, the
    flag set and the value 0. *)
Theorem bust_hand_stays_bust self l count double index h self' l' count' h' :
  possible self = [] ->
  hit cfg self l count double index h = (Ret (self', (l', count')), h') ->
  possible self' = [] /\ bust self' = true /\ value self' = 0 /\
  length (cards self') = S (length (cards self)) /\
  exists nums nums',
    h !! l = Some nums /\ h' !! l' = Some nums' /\ py_sum nums' = py_sum nums - 1.
Proof.
  intros Hnil Hhit.
  destruct (hit_ret_inv _ _ _ _ _ _ _ _ _ _ Hhit)
    as (nums & c & card & v & w & Hl & Hc & _ & _ & _ & -> & _ & -> &
        Hposs & Hbust & Hv0 & _ & Hcards & _).
  assert (E : new_possible self v = []).
  { unfold new_possible. rewrite Hnil. destruct v; reflexivity. }
  rewrite E in Hposs, Hbust. cbn in Hposs, Hbust.
  split; [exact Hposs |]. split; [exact Hbust |]. split; [auto |].
  split; [rewrite Hcards, length_app; cbn; lia |].
  exists nums, (<[index := c - 1]> nums).
  split; [exact Hl |]. split; [apply lookup_insert_eq |].
  rewrite (py_sum_insert nums index c) by exact Hc. lia.
Qed.

(** X7. A double is a plain draw of the same card with the bet multiplied
    by 2 and [active] cleared: nothing else differs, and an int bet [b]
    becomes [2 * b]. *)
Theorem double_is_hit_with_doubled_bet self l count index h self1 r h1 :
  hit cfg self l count false index h = (Ret (self1, r), h1) ->
  exists b2,
    num_mul (bet self) (PInt 2) = Ret b2 /\
    (forall b, bet self = PInt b -> b2 = PInt (b * 2)) /\
    hit cfg self l count true index h = (Ret (doubled self1 b2, r), h1).
Proof.
  intros Hhit. destruct r as [l1 c1].
  destruct (hit_inv _ _ _ _ _ _ _ _ _ Hhit)
    as (nums & c & card & v & w & H1 & H2 & H3 & H4 & H5 & H6).
  destruct (num_mul_two (bet self)) as [b2 Hb2].
  exists b2. split; [exact Hb2 |].
  split; [intros b Hb; rewrite Hb in Hb2; cbn in Hb2; congruence |].
  revert Hhit.
  unfold hit, mbind, M_bind, load, lift, alloc, store, py_index, mret, M_ret.
  rewrite H1, H2, H3, H4, H5, H6, Hb2.
  destruct (if if (length (new_possible self v) =? 0)%nat then true else bust self
            then Ret 0 else np_max (remove_dups (new_possible self v))) as [m| |];
    [| discriminate..].
  intros [= <- <- <- <-]. reflexivity.
Qed.

End HandsMore.

(** X8. A participant and a dealer that are both bust: the participant is
    recorded as losing the bet with fewer than five cards, and as winning
    it with five cards or more. *)
Theorem both_bust_settlement cfg p d :
  reachable cfg p -> reachable cfg d ->
  bust p = true -> bust d = true ->
  runW <$> result p d
    = Ret (runW p ++ [if (5 <=? length (cards p))%nat then bet p else num_neg (bet p)]).
Proof.
  intros Hp Hd Hbp Hbd.
  destruct (reachable_consistent cfg p Hp) as (_ & _ & Hp0 & _).
  destruct (reachable_consistent cfg d Hd) as (_ & _ & Hd0 & _).
  destruct (Hp0 Hbp) as [_ Ep]. destruct (Hd0 Hbd) as [_ Ed].
  apply result_runW. rewrite final_result_cases, Ep, Ed, Hbp. cbn [Z.ltb Z.eqb Z.compare].
  rewrite andb_false_r. cbn [orb].
  destruct (5 <=? length (cards p))%nat; reflexivity.
Qed.

(** ** Playing a strategy: what a returned call has done *)

Section PlayMore.
  Variable cfg : settings.
  Implicit Types (self : participant) (h : heap).

Lemma play_loop_stopped fuel draws self action l count dealer :
  negb (String.eqb action "S") && negb (bust self) && active self = false ->
  play_loop cfg fuel draws self action l count dealer = mret (self, (l, count)).
Proof. intros H. rewrite play_loop_unfold, H. reflexivity. Qed.

Lemma hit_double_bet self l count index h self' r h' :
  hit cfg self l count true index h = (Ret (self', r), h') ->
  num_mul (bet self) (PInt 2) = Ret (bet self').
Proof.
  intros Hhit.
  destruct (hit_inv _ _ _ _ _ _ _ _ _ Hhit)
    as (nums & c & card & v & w & H1 & H2 & H3 & H4 & H5 & H6).
  revert Hhit.
  unfold hit, mbind, M_bind, load, lift, alloc, store, py_index, mret, M_ret.
  rewrite H1, H2, H3, H4, H5, H6.
  destruct (if if (length (new_possible self v) =? 0)%nat then true else bust self
            then Ret 0 else np_max (remove_dups (new_possible self v))) as [m| |];
    [| discriminate..].
  destruct (num_mul (bet self) (PInt 2)) as [b2| |]; [| discriminate..].
  intros [= <- _ _]. reflexivity.
Qed.

(** What a returned loop has done to the deck and to the hand. *)
Lemma play_loop_ret fuel :
  forall draws self action l count dealer h self' l' count' h' nums,
    h !! l = Some nums ->
    play_loop cfg fuel draws self action l count dealer h = (Ret (self', (l', count')), h') ->
    (exists nums' drawn,
       h' !! l' = Some nums' /\ length nums' = length nums /\
       cards self' = cards self ++ drawn /\
       py_sum nums' = py_sum nums - Z.of_nat (length drawn)) /\
    (ptype self' = ptype self /\ soft_strategy self' = soft_strategy self /\
     hard_strategy self' = hard_strategy self /\
     runV self' = runV self /\ runW self' = runW self) /\
    (bust self' = true \/ active self' = false \/
     (action = "S"%string /\ self' = self) \/ lookup_action self' dealer = Ret "S"%string) /\
    ((bet self' = bet self /\ active self' = active self) \/
     (active self' = false /\ num_mul (bet self) (PInt 2) = Ret (bet self'))).
Proof.
  induction fuel as [|fuel IH];
    intros draws self action l count dealer h self' l' count' h' nums Hl;
    rewrite play_loop_unfold.
  all: destruct (negb (String.eqb action "S") && negb (bust self) && active self) eqn:Hcond.
  all: try discriminate.
  all: try (intros [= <- <- <- <-];
            split; [exists nums, []; rewrite app_nil_r; cbn; repeat split; auto; lia |];
            split; [auto 10 |];
            split; [| auto];
            destruct (String.eqb_spec action "S") as [-> | _]; [auto |];
            destruct (bust self); [auto |]; destruct (active self); [discriminate | auto]).
  rewrite M_bind_lift.
  destruct (lookup_action self dealer) as [a| |] eqn:Ha; [| discriminate..].
  assert (Hdraw : forall double,
    a <> "S"%string ->
    (r ← hit cfg self l count double (draws O);
     play_loop cfg fuel (fun i => draws (S i)) r.1 a r.2.1 r.2.2 dealer) h
      = (Ret (self', (l', count')), h') ->
    (exists nums' drawn,
       h' !! l' = Some nums' /\ length nums' = length nums /\
       cards self' = cards self ++ drawn /\
       py_sum nums' = py_sum nums - Z.of_nat (length drawn)) /\
    (ptype self' = ptype self /\ soft_strategy self' = soft_strategy self /\
     hard_strategy self' = hard_strategy self /\
     runV self' = runV self /\ runW self' = runW self) /\
    (bust self' = true \/ active self' = false \/
     (action = "S"%string /\ self' = self) \/ lookup_action self' dealer = Ret "S"%string) /\
    ((bet self' = bet self /\ active self' = active self) \/
     (active self' = false /\ num_mul (bet self) (PInt 2) = Ret (bet self')))).
  { intros double HnS. unfold mbind, M_bind.
    destruct (hit cfg self l count double (draws O) h) as [[[s1 [l1 c1]]| |] h1] eqn:Hhit;
      [| discriminate..].
    cbn [fst snd]. intros Hrest.
    destruct (hit_ret_inv _ _ _ _ _ _ _ _ _ _ _ Hhit)
      as (nums0 & c & card & v & w & Hl0 & Hc & _ & _ & _ & -> & _ & -> &
          _ & _ & _ & _ & Hcards & Hact & Hbet & Hpt & Hsoft & Hhard & HV & HW).
    rewrite Hl in Hl0. injection Hl0 as <-.
    destruct double.
    - (* after a double the loop stops *)
      rewrite play_loop_stopped in Hrest
        by (rewrite Hact, !andb_false_r; reflexivity).
      injection Hrest as <- <- <- <-.
      split.
      { exists (<[draws O := c - 1]> nums), [card].
        rewrite lookup_insert_eq, length_insert, (py_sum_insert nums _ c) by exact Hc.
        cbn. repeat split; auto; lia. }
      split; [auto 10 |]. split; [auto |].
      right. split; [exact Hact |]. eapply hit_double_bet; eauto.
    - destruct (IH _ _ _ _ _ _ _ _ _ _ _ (<[draws O := c - 1]> nums)
                  ltac:(apply lookup_insert_eq) Hrest)
        as ((nums' & drawn & Hl' & Hlen & Hc' & Hsum) & (E1 & E2 & E3 & E4 & E5) & Hend & Hdbl).
      split.
      { exists nums', (card :: drawn).
        rewrite length_insert in Hlen.
        rewrite (py_sum_insert nums _ c) in Hsum by exact Hc.
        rewrite Hc', Hcards, <- app_assoc. cbn [app length].
        repeat split; auto. lia. }
      split; [repeat split; congruence |].
      split.
      { destruct Hend as [? | [? | [[-> _] | ?]]]; auto; contradiction. }
      destruct Hdbl as [[Eb Ea] | [Ea Eb]].
      + left. rewrite Eb, Ea, Hact. auto.
      + right. rewrite <- (Hbet eq_refl). auto. }
  destruct (String.eqb_spec a "H") as [-> | _]; [apply Hdraw; discriminate |].
  destruct (String.eqb_spec a "D") as [-> | _]; [apply Hdraw; discriminate |].
  intros Hrest.
  destruct (IH _ _ _ _ _ _ _ _ _ _ _ nums Hl Hrest) as (Hdeck & Hfields & Hend & Hdbl).
  split; [exact Hdeck |]. split; [exact Hfields |]. split; [| exact Hdbl].
  destruct Hend as [? | [? | [[-> ->] | ?]]]; auto.
Qed.

(** The same for a returned call of [play_strategy]. *)
Lemma play_strategy_ret fuel draws self l count dealer h self' l' count' h' :
  play_strategy cfg fuel draws self l count dealer h = (Ret (self', (l', count')), h') ->
  (exists nums nums' drawn,
     h !! l = Some nums /\ h' !! l' = Some nums' /\ length nums' = length nums /\
     cards self' = cards self ++ drawn /\
     py_sum nums' = py_sum nums - Z.of_nat (length drawn)) /\
  (ptype self' = ptype self /\ soft_strategy self' = soft_strategy self /\
   hard_strategy self' = hard_strategy self /\
   runV self' = runV self /\ runW self' = runW self) /\
  (bust self' = true \/ active self' = false \/ lookup_action self' dealer = Ret "S"%string) /\
  ((bet self' = bet self /\ active self' = active self) \/
   (active self' = false /\ num_mul (bet self) (PInt 2) = Ret (bet self'))).
Proof.
  unfold play_strategy, mbind, M_bind, load, alloc.
  destruct (h !! l) as [nums|] eqn:Hl; [| discriminate].
  intros Hloop.
  destruct (play_loop_ret _ _ _ _ _ _ _ _ _ _ _ _ nums ltac:(apply lookup_insert_eq) Hloop)
    as ((nums' & drawn & H1 & H2 & H3 & H4) & Hfields & Hend & Hdbl).
  split; [exists nums, nums', drawn; auto 10 |].
  split; [exact Hfields |]. split; [| exact Hdbl].
  destruct Hend as [? | [? | [[? _] | ?]]]; auto. discriminate.
Qed.

(** X9. A call of [play_strategy] that returns has drawn from the deck
    exactly the cards it added to the hand: the returned list of counts
    has the length of the one passed in and its total is smaller by the
    number of cards added; the type, the strategies and the histories of
    the participant are as they were. *)
Theorem play_strategy_draws_what_it_adds fuel draws self l count dealer h
    self' l' count' h' :
  play_strategy cfg fuel draws self l count dealer h = (Ret (self', (l', count')), h') ->
  (exists nums nums' drawn,
     h !! l = Some nums /\ h' !! l' = Some nums' /\ length nums' = length nums /\
     cards self' = cards self ++ drawn /\
     py_sum nums' = py_sum nums - Z.of_nat (length drawn)) /\
  ptype self' = ptype self /\ soft_strategy self' = soft_strategy self /\
  hard_strategy self' = hard_strategy self /\
  runV self' = runV self /\ runW self' = runW self.
Proof.
  intros H. destruct (play_strategy_ret _ _ _ _ _ _ _ _ _ _ _ H) as (Hdeck & Hfields & _).
  split; [exact Hdeck | exact Hfields].
Qed.

(** X10. The hand [play_strategy] returns is bust, or has doubled, or is
    one on which the strategy table says to stand. *)
Theorem play_strategy_ends_bust_doubled_or_standing fuel draws self l count dealer h
    self' r h' :
  play_strategy cfg fuel draws self l count dealer h = (Ret (self', r), h') ->
  bust self' = true \/ active self' = false \/ lookup_action self' dealer = Ret "S"%string.
Proof.
  destruct r as [l' count']. intros H.
  destruct (play_strategy_ret _ _ _ _ _ _ _ _ _ _ _ H) as (_ & _ & Hend & _). exact Hend.
Qed.

(** X11. A participant doubles at most once in a call of [play_strategy]:
    on return either the bet and [active] are as they were, or [active] is
    cleared and the bet is the one passed in multiplied by 2. *)
Theorem play_strategy_doubles_at_most_once fuel draws self l count dealer h self' r h' :
  play_strategy cfg fuel draws self l count dealer h = (Ret (self', r), h') ->
  (bet self' = bet self /\ active self' = active self) \/
  (active self' = false /\ num_mul (bet self) (PInt 2) = Ret (bet self')).
Proof.
  destruct r as [l' count']. intros H.
  destruct (play_strategy_ret _ _ _ _ _ _ _ _ _ _ _ H) as (_ & _ & _ & Hdbl). exact Hdbl.
Qed.

(** X12. On a hand that is bust or has doubled, [play_strategy] looks
    nothing up and draws nothing, whatever the fuel: it returns the
    participant and the count as they are, with a new copy of the list of
    counts. *)
Theorem play_strategy_on_finished_hand fuel draws self l count dealer h nums :
  h !! l = Some nums ->
  bust self = true \/ active self = false ->
  play_strategy cfg fuel draws self l count dealer h
    = (Ret (self, (fresh (dom h), count)), <[fresh (dom h) := nums]> h).
Proof.
  intros Hl Hdone. unfold play_strategy, mbind, M_bind, load, alloc. rewrite Hl.
  rewrite play_loop_stopped; [reflexivity |].
  destruct Hdone as [-> | ->]; cbn; rewrite ?andb_false_r; reflexivity.
Qed.

(** X13. A failed lookup ends [play_strategy] with the exception of the
    lookup: on a hand that is neither bust nor doubled, an
    [AttributeError] when the strategy the hand calls for (soft with more
    than one possible total, hard otherwise) was never set, and a
    [KeyError] when its table has no cell for the dealer's column and the
    value of the hand. *)
Theorem play_strategy_lookup_failure fuel draws self l count dealer h nums :
  h !! l = Some nums ->
  bust self = false -> active self = true ->
  let strategy := if (1 <? length (possible self))%nat then soft_strategy self
                  else hard_strategy self in
  let col := match dealer with
             | None => ColValue
             | Some d => ColDealer (value d)
             end in
  (strategy = None ->
     (play_strategy cfg (S fuel) draws self l count dealer h).1 = Raise AttributeError) /\
  (forall t, strategy = Some t -> t col (value self) = None ->
     (play_strategy cfg (S fuel) draws self l count dealer h).1 = Raise KeyError).
Proof.
  intros Hl Hb Ha strategy col.
  assert (H : forall e, lookup_action self dealer = Raise e ->
            (play_strategy cfg (S fuel) draws self l count dealer h).1 = Raise e).
  { intros e He. unfold play_strategy, mbind, M_bind, load, alloc. rewrite Hl.
    rewrite play_loop_unfold, Hb, Ha. cbn [String.eqb negb andb].
    rewrite M_bind_lift, He. reflexivity. }
  split.
  - intros Hnone. apply H. unfold lookup_action. fold strategy. rewrite Hnone. reflexivity.
  - intros t Ht Hcell. apply H. unfold lookup_action. fold strategy. rewrite Ht.
    fold col. rewrite Hcell. reflexivity.
Qed.

Lemma play_loop_spins fuel :
  forall draws self action l count dealer h a,
    bust self = false -> active self = true ->
    lookup_action self dealer = Ret a ->
    a <> "H"%string -> a <> "S"%string -> a <> "D"%string ->
    action <> "S"%string ->
    play_loop cfg fuel draws self action l count dealer h = (Timeout, h).
Proof.
  induction fuel as [|fuel IH]; intros draws self action l count dealer h a Hb Ha Hlook HH HS HD Hact;
    rewrite play_loop_unfold, Hb, Ha;
    destruct (String.eqb_spec action "S") as [| _]; try contradiction;
    cbn [negb andb]; [reflexivity |].
  rewrite M_bind_lift, Hlook.
  destruct (String.eqb_spec a "H"); [contradiction |].
  destruct (String.eqb_spec a "D"); [contradiction |].
  eapply IH; eauto.
Qed.

(** X14. A table cell that is none of H, S and D makes the loop spin: on
    a hand that is neither bust nor doubled and for which the lookup gives
    such a cell, [play_strategy] does not end, whatever the fuel, and
    draws nothing. *)
Theorem play_strategy_spins_on_unknown_action fuel draws self l count dealer h nums a :
  h !! l = Some nums ->
  bust self = false -> active self = true ->
  lookup_action self dealer = Ret a ->
  a <> "H"%string -> a <> "S"%string -> a <> "D"%string ->
  play_strategy cfg fuel draws self l count dealer h
    = (Timeout, <[fresh (dom h) := nums]> h).
Proof.
  intros Hl Hb Ha Hlook HH HS HD.
  unfold play_strategy, mbind, M_bind, load, alloc. rewrite Hl.
  erewrite play_loop_spins; eauto; discriminate.
Qed.

End PlayMore.

(** ** Bet sizing: sitting out on a count that is not positive *)

Section BettingMore.
  Variable cfg : settings.

Lemma Zdigits2_pos m : 0 < m -> 0 < Zdigits2 m.
Proof. destruct m; cbn; lia. Qed.

Lemma Zdigits2_pos_inv m : 0 <= m -> 0 < Zdigits2 m -> 0 < m.
Proof. destruct m; cbn; lia. Qed.

(** Rounding a positive mantissa that is not below the smallest double
    does not give a zero. *)
Lemma binary_round_aux_nonzero s m e l :
  0 < m -> -1074 < Zdigits2 m + e ->
  match binary_round_aux prec emax s m e l with
  | S754_infinity s' | S754_finite s' _ _ => s' = s
  | _ => False
  end.
Proof.
  intros Hm Hd. unfold binary_round_aux.
  destruct (shr_fexp_digits m e l ltac:(lia)) as (H1 & E1 & D1).
  destruct (shr_fexp prec emax m e l) as [mrs' e']. cbn [fst snd] in *.
  pose proof (Zdigits2_pos m Hm) as Hdm.
  assert (Hm' : 0 < shr_m mrs').
  { apply Zdigits2_pos_inv; [exact H1 |]. rewrite D1, E1.
    unfold fexp, emin, prec, emax. lia. }
  set (m1 := round_nearest_even (shr_m mrs') (loc_of_shr_record mrs')).
  pose proof (round_nearest_even_bounds (shr_m mrs') (loc_of_shr_record mrs') H1) as Hr.
  fold m1 in Hr.
  destruct (shr_fexp_digits m1 e' loc_Exact ltac:(lia)) as (H2 & E2 & D2).
  destruct (shr_fexp prec emax m1 e' loc_Exact) as [mrs'' e'']. cbn [fst snd] in *.
  pose proof (Zdigits2_pos m1 ltac:(lia)) as Hdm1.
  assert (Hm'' : 0 < shr_m mrs'').
  { apply Zdigits2_pos_inv; [exact H2 |]. rewrite D2, E2.
    unfold fexp, emin, prec, emax in *. lia. }
  destruct (shr_m mrs'') as [|p|p]; [lia | | lia].
  destruct (e'' <=? emax - prec); reflexivity.
Qed.

(** The double of a positive int is finite and positive. *)
Lemma float_of_int_positive z f :
  0 < z -> float_of_int z = Ret f -> positive_finite f.
Proof.
  intros Hz. unfold float_of_int.
  destruct z as [|p|p]; try lia.
  unfold binary_normalize, binary_round, shl_align.
  assert (H : forall mz ez, -1074 < Z.pos (digits2_pos mz) + ez ->
            match binary_round_aux prec emax false (Z.pos mz) ez loc_Exact with
            | S754_infinity s' | S754_finite s' _ _ => s' = false
            | _ => False
            end).
  { intros mz ez Hd. apply binary_round_aux_nonzero; [lia | exact Hd]. }
  destruct (fexp prec emax (Z.pos (digits2_pos p) + 0) - 0) as [|q|q] eqn:E;
    match goal with
    | |- context [binary_round_aux prec emax false (Z.pos ?mz) ?ez loc_Exact] =>
        specialize (H mz ez);
        destruct (binary_round_aux prec emax false (Z.pos mz) ez loc_Exact) as [| | |s' m' e'];
        try discriminate;
        try (exfalso; apply H; rewrite ?digits2_pos_iter_xO;
             unfold fexp, emin, prec, emax in *; lia)
    end.
  all: intros [= <-]; rewrite H; [exact I |];
    rewrite ?digits2_pos_iter_xO; unfold fexp, emin, prec, emax in *; lia.
Qed.

(** The quotient of an int that is not positive by a positive int is not
    positive. *)
Lemma int_truediv_not_positive a b q :
  a <= 0 -> 0 < b -> int_truediv a b = Ret q -> not_positive q.
Proof.
  intros Ha Hb. unfold int_truediv.
  destruct (Z.eqb_spec b 0); [lia |].
  destruct (Z.eqb_spec a 0); [intros [= <-]; exact I |].
  replace (a <? 0) with true by (symmetry; apply Z.ltb_lt; lia).
  replace (b <? 0) with false by (symmetry; apply Z.ltb_ge; lia).
  cbn [xorb].
  assert (Hq : 0 <= (SFdiv_core_binary prec emax (Z.abs a) 0 (Z.abs b) 0).1.1).
  { unfold SFdiv_core_binary.
    match goal with
    | |- context [Z.div_eucl ?m' (Z.abs b)] =>
        assert (Hm' : 0 <= m');
        [| pose proof (Z.div_eucl_eq m' (Z.abs b) ltac:(lia)) as Hdiv;
           pose proof (Z.mod_pos_bound m' (Z.abs b) ltac:(lia)) as Hmod;
           unfold Z.modulo in Hmod;
           destruct (Z.div_eucl m' (Z.abs b)) as [q0 r0]; cbn [fst]; nia]
    end.
    match goal with
    | |- 0 <= match ?s with _ => _ end => destruct s; [lia | | lia]
    end.
    apply Z.shiftl_nonneg. lia. }
  destruct (SFdiv_core_binary prec emax (Z.abs a) 0 (Z.abs b) 0) as [[q0 e] l].
  cbn [fst] in Hq.
  pose proof (binary_round_aux_sign true q0 e l Hq) as Hs.
  destruct (binary_round_aux prec emax true q0 e l); try discriminate;
    intros [= <-]; cbn in Hs |- *; auto.
Qed.

(** Multiplying by a positive finite double and subtracting one keep a
    double that is not positive so. *)
Lemma SFmul_not_positive x y :
  not_positive x -> positive_finite y -> not_positive (SFmul prec emax x y).
Proof.
  destruct y as [| | |[] my ey]; try contradiction. intros Hx _.
  destruct x as [sx | sx | | sx mx ex]; cbn in Hx; cbn [SFmul xorb not_positive];
    try contradiction; subst; auto.
  match goal with
  | |- not_positive (binary_round_aux _ _ ?s ?m ?e ?l) =>
      pose proof (binary_round_aux_sign s m e l ltac:(lia)) as Hs;
      destruct (binary_round_aux prec emax s m e l); cbn in Hs |- *; auto; contradiction
  end.
Qed.

Lemma binary_round_sign s m e :
  match binary_round prec emax s m e with
  | S754_zero s' | S754_infinity s' | S754_finite s' _ _ => s' = s
  | S754_nan => False
  end.
Proof.
  unfold binary_round.
  destruct (shl_align m e (fexp prec emax (Z.pos (digits2_pos m) + e))) as [mz ez].
  apply binary_round_aux_sign. lia.
Qed.

Lemma SFsub_not_positive x y :
  not_positive x -> positive_finite y -> not_positive (SFsub prec emax x y).
Proof.
  destruct y as [| | |[] my ey]; try contradiction. intros Hx _.
  destruct x as [sx | sx | | sx mx ex]; cbn in Hx; cbn [SFsub negb not_positive];
    try contradiction; subst; auto.
  unfold binary_normalize, cond_Zopp.
  match goal with
  | |- context [Z.sub (Z.opp (Z.pos ?a)) (Z.pos ?b)] =>
      change (Z.sub (Z.opp (Z.pos a)) (Z.pos b)) with (Z.neg (a + b))
  end.
  cbv iota.
  match goal with
  | |- context [binary_round prec emax true ?m ?e] =>
      pose proof (binary_round_sign true m e) as Hs;
      destruct (binary_round prec emax true m e); cbn in Hs |- *; auto; contradiction
  end.
Qed.

(** A double that is not positive is below every positive int, and so is
    the larger of it and 0. *)
Lemma num_max_not_positive x z :
  not_positive x -> 0 < z -> num_ltb (num_max (PFloat x) (PInt 0)) (PInt z) = true.
Proof.
  intros Hx Hz. unfold num_max.
  destruct (num_ltb (PFloat x) (PInt 0)) eqn:E.
  - unfold num_ltb, num_compare. destruct (Z.compare_spec 0 z); [lia | reflexivity | lia].
  - unfold num_ltb, num_compare, SFcompare_int in *.
    destruct x as [sx | sx | | sx mx ex]; cbn in Hx; try contradiction; subst.
    + destruct (Z.compare_spec 0 z); [lia | reflexivity | lia].
    + discriminate.
    + exfalso. destruct (Z.leb_spec 0 ex).
      * assert (0 < 2 ^ ex) by (apply Z.pow_pos_nonneg; lia).
        destruct (Z.compare_spec (Z.neg mx * 2 ^ ex) 0); try discriminate; nia.
      * destruct (Z.compare_spec (Z.neg mx) (0 * 2 ^ (- ex))); try discriminate; lia.
Qed.

(** X15. With a running count that is not positive (and a positive deck
    total, per-deck constant, number of ranks and minimum bet)
    [set_bet_counting] leaves a bet of 0 whenever it returns, and it
    returns when the count and the constants are below [2^1023] in
    size. *)
Theorem set_bet_counting_sits_out self count nums :
  count <= 0 ->
  0 < py_sum nums ->
  0 < N_CARD_EACH_DECK cfg ->
  CARDS cfg <> [] ->
  0 < MIN_BET cfg ->
  (forall self', set_bet_counting cfg self count nums = Ret self' ->
     self' = with_bet self (PInt 0)) /\
  (- 2 ^ 1023 < count ->
   N_CARD_EACH_DECK cfg < 2 ^ 1023 ->
   Z.of_nat (length (CARDS cfg)) < 2 ^ 1023 ->
   MIN_BET cfg < 2 ^ 1023 ->
   set_bet_counting cfg self count nums = Ret (with_bet self (PInt 0))).
Proof.
  intros Hc Hs Hn Hk Hm.
  assert (Hlen : 0 < Z.of_nat (length (CARDS cfg))).
  { destruct (CARDS cfg); [contradiction | cbn; lia]. }
  assert (H : forall self', set_bet_counting cfg self count nums = Ret self' ->
            self' = with_bet self (PInt 0)).
  { intros self'. rewrite set_bet_counting_policy.
    unfold policy, trueCount, betValue, num_truediv, num_mul, num_sub, to_float.
    destruct (int_truediv count (py_sum nums)) as [q| |] eqn:Eq; cbn; try discriminate.
    pose proof (int_truediv_not_positive _ _ _ Hc Hs Eq) as Hq.
    destruct (float_of_int (N_CARD_EACH_DECK cfg)) as [n| |] eqn:En; cbn; try discriminate.
    pose proof (float_of_int_positive _ _ Hn En) as Hpn.
    destruct (float_of_int (Z.of_nat (length (CARDS cfg)))) as [k| |] eqn:Ek;
      cbn; try discriminate.
    pose proof (float_of_int_positive _ _ Hlen Ek) as Hpk.
    destruct (float_of_int 1) as [one| |] eqn:E1; cbn; try discriminate.
    pose proof (float_of_int_positive 1 _ ltac:(lia) E1) as Hp1.
    destruct (float_of_int (MIN_BET cfg)) as [m| |] eqn:Em; cbn; try discriminate.
    pose proof (float_of_int_positive _ _ Hm Em) as Hpm.
    rewrite num_max_not_positive; [intros [= <-]; reflexivity | | exact Hm].
    auto using SFmul_not_positive, SFsub_not_positive. }
  split; [exact H |].
  intros Hc' Hn' Hk' Hm'.
  destruct (policy_ret cfg count (py_sum nums)) as [bv Hbv]; try lia.
  assert (Hret : exists self', set_bet_counting cfg self count nums = Ret self').
  { rewrite set_bet_counting_policy, Hbv. cbn. eauto. }
  destruct Hret as [self' Hret]. rewrite Hret. f_equal. apply H. exact Hret.
Qed.

End BettingMore.

(** ** Bet sizing: the bet that is set *)

Section BettingNumbers.
  Variable cfg : settings.

Lemma binary_normalize_not_nan m e sz : binary_normalize prec emax m e sz <> S754_nan.
Proof.
  unfold binary_normalize. destruct m as [|p|p]; [discriminate | |];
    match goal with
    | |- binary_round _ _ ?s ?m ?e <> _ =>
        pose proof (binary_round_sign s m e) as H;
        destruct (binary_round prec emax s m e); [discriminate.. | contradiction | discriminate]
    end.
Qed.

(** A conversion that returns gives a zero or a finite double. *)
Lemma float_of_int_number z f : float_of_int z = Ret f -> is_number f.
Proof.
  unfold float_of_int. pose proof (binary_normalize_not_nan z 0 false) as H.
  destruct (binary_normalize prec emax z 0 false); cbn; try discriminate;
    intros [= <-]; cbn; auto.
Qed.

(** The double of an int other than 0 is not a zero. *)
Lemma float_of_int_nonzero z f :
  z <> 0 -> float_of_int z = Ret f -> is_zero f = false.
Proof.
  intros Hz. unfold float_of_int.
  destruct z as [|p|p]; try lia.
  all: unfold binary_normalize, binary_round, shl_align.
  all: destruct (fexp prec emax (Z.pos (digits2_pos p) + 0) - 0) as [|q|q] eqn:E;
    match goal with
    | |- context [binary_round_aux prec emax ?s (Z.pos ?mz) ?ez loc_Exact] =>
        pose proof (binary_round_aux_nonzero s (Z.pos mz) ez loc_Exact ltac:(lia)) as H;
        destruct (binary_round_aux prec emax s (Z.pos mz) ez loc_Exact) as [| | |s' m' e'];
        try discriminate;
        try (exfalso; apply H; cbn [Zdigits2]; rewrite ?digits2_pos_iter_xO;
             unfold fexp, emin, prec, emax in *; lia)
    end.
  all: intros [= <-]; reflexivity.
Qed.

(** A quotient of two ints that returns is a zero or a finite double. *)
Lemma int_truediv_number a b q : int_truediv a b = Ret q -> is_number q.
Proof.
  unfold int_truediv.
  destruct (Z.eqb_spec b 0); [discriminate |].
  destruct (Z.eqb_spec a 0); [intros [= <-]; exact I |].
  set (s := xorb (a <? 0) (b <? 0)).
  assert (Hq : 0 <= (SFdiv_core_binary prec emax (Z.abs a) 0 (Z.abs b) 0).1.1).
  { unfold SFdiv_core_binary.
    match goal with
    | |- context [Z.div_eucl ?m' (Z.abs b)] =>
        assert (Hm' : 0 <= m');
        [| pose proof (Z.div_eucl_eq m' (Z.abs b) ltac:(lia)) as Hdiv;
           pose proof (Z.mod_pos_bound m' (Z.abs b) ltac:(lia)) as Hmod;
           unfold Z.modulo in Hmod;
           destruct (Z.div_eucl m' (Z.abs b)) as [q0 r0]; cbn [fst]; nia]
    end.
    match goal with
    | |- 0 <= match ?s with _ => _ end => destruct s; [lia | | lia]
    end.
    apply Z.shiftl_nonneg. lia. }
  destruct (SFdiv_core_binary prec emax (Z.abs a) 0 (Z.abs b) 0) as [[q0 e] l].
  cbn [fst] in Hq.
  pose proof (binary_round_aux_sign s q0 e l Hq) as Hs.
  destruct (binary_round_aux prec emax s q0 e l); try discriminate;
    intros [= <-]; cbn in Hs |- *; auto.
Qed.

(** A product is a NaN only when a factor is one, or when one factor is
    infinite and the other a zero. *)
Lemma SFmul_not_nan x y :
  x <> S754_nan -> is_number y -> is_number x \/ is_zero y = false ->
  SFmul prec emax x y <> S754_nan.
Proof.
  intros Hx Hy Hor.
  destruct x as [sx | sx | | sx mx ex], y as [sy | sy | | sy my ey];
    cbn in Hy, Hor |- *; try discriminate; try contradiction;
    try (destruct Hor; [contradiction | discriminate]).
  match goal with
  | |- binary_round_aux _ _ ?s ?m ?e ?l <> _ =>
      pose proof (binary_round_aux_sign s m e l ltac:(lia)) as Hs;
      destruct (binary_round_aux prec emax s m e l); [discriminate.. | contradiction | discriminate]
  end.
Qed.

(** Subtracting a zero or a finite double from a double that is not a
    NaN does not give one. *)
Lemma SFsub_not_nan x y :
  x <> S754_nan -> is_number y -> SFsub prec emax x y <> S754_nan.
Proof.
  intros Hx Hy.
  destruct x as [sx | sx | | sx mx ex], y as [sy | sy | | sy my ey];
    cbn [SFsub] in *; cbn in Hy; try discriminate; try contradiction.
  - destruct sx, sy; discriminate.
  - apply binary_normalize_not_nan.
Qed.

Lemma bet_value_policy count nums :
  bet_value cfg count nums = policy cfg count (py_sum nums).
Proof.
  unfold bet_value, true_count, policy, trueCount, betValue.
  destruct (num_truediv (PInt count) (PInt (py_sum nums))) as [q| |]; cbn; reflexivity.
Qed.

(** With a minimum bet other than 0 and at least one rank the bet value
    is not a NaN. *)
Lemma policy_not_nan rc total bv :
  MIN_BET cfg <> 0 -> CARDS cfg <> [] ->
  policy cfg rc total = Ret bv -> bv <> PFloat S754_nan.
Proof.
  intros Hm Hk.
  assert (Hlen : Z.of_nat (length (CARDS cfg)) <> 0).
  { destruct (CARDS cfg); [contradiction | cbn; lia]. }
  unfold policy, trueCount, betValue, num_truediv, num_mul, num_sub, to_float.
  destruct (int_truediv rc total) as [q| |] eqn:Eq; cbn; try discriminate.
  pose proof (int_truediv_number _ _ _ Eq) as Hq.
  destruct (float_of_int (N_CARD_EACH_DECK cfg)) as [n| |] eqn:En; cbn; try discriminate.
  pose proof (float_of_int_number _ _ En) as Hn.
  destruct (float_of_int (Z.of_nat (length (CARDS cfg)))) as [k| |] eqn:Ek;
    cbn; try discriminate.
  pose proof (float_of_int_number _ _ Ek) as Hk1.
  pose proof (float_of_int_nonzero _ _ Hlen Ek) as Hk2.
  destruct (float_of_int 1) as [one| |] eqn:E1; cbn; try discriminate.
  pose proof (float_of_int_number _ _ E1) as H1.
  destruct (float_of_int (MIN_BET cfg)) as [m| |] eqn:Em; cbn; try discriminate.
  pose proof (float_of_int_number _ _ Em) as Hm1.
  pose proof (float_of_int_nonzero _ _ Hm Em) as Hm2.
  intros [= <-]. unfold num_max.
  match goal with
  | |- (if ?b then _ else _) <> _ => destruct b; [discriminate |]
  end.
  intros [= E]. revert E.
  apply SFmul_not_nan; [| exact Hm1 | right; exact Hm2].
  apply SFsub_not_nan; [| exact H1].
  apply SFmul_not_nan; [| exact Hk1 | right; exact Hk2].
  apply SFmul_not_nan; [| exact Hn | left; exact Hq].
  destruct q; cbn in Hq; try contradiction; discriminate.
Qed.

(** C7. With a positive deck total the bet value [set_bet_counting]
    computes is that of the policy,
    [betValue = max((runningCount / totalRemainingCards * cardsPerDeck *
    distinctRankCount - 1) * minimumBet, 0)], evaluated in doubles.  The
    evaluation raises an [OverflowError], and [set_bet_counting] with it,
    only when an integer is too large for a double, which does not happen
    below [2^1023].  When it returns, [set_bet_counting] changes the bet
    and nothing else: the bet is 0 when [betValue < minimumBet] and
    [betValue] otherwise, a NaN included.  With a minimum bet other than
    0 and at least one rank [betValue] is not a NaN, and the bet is
    [betValue] when [betValue >= minimumBet] and 0 otherwise.  With
    running count 8, 100 cards left, 52 cards per deck and 13 ranks the
    true count is the double 54.08, the same as the quotient
    [5408 / 100]. *)
Theorem set_bet_counting_sets_policy_bet self count nums :
  0 < py_sum nums ->
  bet_value cfg count nums = policy cfg count (py_sum nums) /\
  match policy cfg count (py_sum nums) with
  | Ret bv =>
      exists self',
        set_bet_counting cfg self count nums = Ret self' /\
        self' = with_bet self (bet self') /\
        bet self' = (if num_ltb bv (PInt (MIN_BET cfg)) then PInt 0 else bv) /\
        (bv = PFloat S754_nan -> bet self' = PFloat S754_nan) /\
        (MIN_BET cfg <> 0 -> CARDS cfg <> [] ->
           bv <> PFloat S754_nan /\
           bet self' = (if num_geb bv (PInt (MIN_BET cfg)) then bv else PInt 0))
  | Raise e =>
      e = OverflowError /\ set_bet_counting cfg self count nums = Raise OverflowError
  | Timeout => False
  end /\
  (Z.abs count < 2 ^ 1023 ->
   Z.abs (N_CARD_EACH_DECK cfg) < 2 ^ 1023 ->
   Z.of_nat (length (CARDS cfg)) < 2 ^ 1023 ->
   Z.abs (MIN_BET cfg) < 2 ^ 1023 ->
   exists bv, policy cfg count (py_sum nums) = Ret bv) /\
  (count = 8 -> py_sum nums = 100 ->
   N_CARD_EACH_DECK cfg = 52 -> length (CARDS cfg) = 13%nat ->
   true_count cfg count nums = Ret (PFloat f54_08) /\
   trueCount 8 100 52 13 = Ret (PFloat f54_08) /\
   int_truediv 5408 100 = Ret f54_08).
Proof.
  intros Hs.
  pose proof (policy_overflow_only cfg count (py_sum nums) ltac:(lia)) as Hov.
  split; [apply bet_value_policy |].
  split; [| split].
  - rewrite set_bet_counting_policy.
    destruct (policy cfg count (py_sum nums)) as [bv | e |] eqn:E; cbn in Hov |- *.
    + eexists. split; [reflexivity |]. cbn [bet with_bet].
      split; [reflexivity |]. split; [reflexivity |].
      split; [intros ->; reflexivity |].
      intros Hm Hk. pose proof (policy_not_nan _ _ _ Hm Hk E) as Hnan.
      split; [exact Hnan |].
      destruct (num_geb bv (PInt (MIN_BET cfg))) eqn:Hge.
      * rewrite (num_geb_ltb _ _ Hge). reflexivity.
      * rewrite (num_not_geb_ltb _ _ Hnan Hge). reflexivity.
    + subst e. split; reflexivity.
    + exact Hov.
  - intros. apply policy_ret; [lia | assumption..].
  - intros -> Ht Hn Hk. unfold true_count. rewrite Ht, Hn, Hk.
    repeat split; vm_compute; reflexivity.
Qed.

End BettingNumbers.

(** ** Setting a strategy and running a game *)

Section StrategyMore.
  Variable cfg : settings.



End StrategyMore.

Section GameMore.
  Import Blackjack.
  Variable cfg : settings.
  Implicit Types (g : blackjack) (w : world).


(** A draw for an object of the game ends; when it goes through the
    players and the dealer of the game are the same and every participant
    is still one. *)
Lemma hit_at_outcome draws x g w :
  hit_at cfg draws x g w <> OutOfFuel /\
  (forall e, hit_at cfg draws x g w = Failed e -> exists e', e = Participant e') /\
  (forall g' w', hit_at cfg draws x g w = Done (g', w') ->
     players g' = players g /\ dealer g' = dealer g /\
     is_Some (objs w' !! x) /\
     forall y, is_Some (objs w !! y) -> is_Some (objs w' !! y)).
Proof.
  unfold hit_at.
  destruct (objs w !! x) as [p|] eqn:Hx.
  - pose proof (hit_never_times_out cfg p (Blackjack.num_cards g) (Blackjack.count g) false
                  (draws (drawn w)) (lists w)) as Hnt.
    destruct (hit cfg p _ _ false _ (lists w)) as [[[p' [l' c']]| |] h'];
      [| | exfalso; apply Hnt; reflexivity].
    + split; [discriminate |]. split; [discriminate |].
      intros g' w' [= <- <-]. cbn. repeat split.
      * rewrite lookup_insert_eq. eauto.
      * intros y Hy. destruct (decide (x = y)) as [-> | Hne];
          [rewrite lookup_insert_eq; eauto | rewrite lookup_insert_ne by exact Hne; exact Hy].
    + split; [discriminate |]. split; [| discriminate]. intros e0 [= <-]. eauto.
  - split; [discriminate |]. split; [| discriminate]. intros e0 [= <-]. eauto.
Qed.

Lemma for_each_hit_at_outcome draws ps :
  forall g w,
    for_each (hit_at cfg draws) ps g w <> OutOfFuel /\
    (forall e, for_each (hit_at cfg draws) ps g w = Failed e -> exists e', e = Participant e') /\
    (forall g' w', for_each (hit_at cfg draws) ps g w = Done (g', w') ->
       players g' = players g /\ dealer g' = dealer g /\
       (forall x, x ∈ ps -> is_Some (objs w' !! x)) /\
       forall y, is_Some (objs w !! y) -> is_Some (objs w' !! y)).
Proof.
  induction ps as [|x ps IH]; intros g w; cbn [for_each].
  - split; [discriminate |]. split; [discriminate |].
    intros g' w' [= <- <-]. repeat split; auto. intros x Hx. inversion Hx.
  - destruct (hit_at_outcome draws x g w) as (Hnt & Hfail & Hdone).
    unfold mbind, run_bind.
    destruct (hit_at cfg draws x g w) as [[g1 w1]| e |]; [| | contradiction].
    + cbn [fst snd]. destruct (Hdone g1 w1 eq_refl) as (Hp & Hd & Hx & Hmono).
      destruct (IH g1 w1) as (Hnt' & Hfail' & Hdone').
      split; [exact Hnt' |]. split; [exact Hfail' |].
      intros g' w' Hrest. destruct (Hdone' g' w' Hrest) as (Hp' & Hd' & Hin & Hmono').
      repeat split; try congruence; auto.
      intros y Hy. apply elem_of_cons in Hy as [-> | Hy]; auto.
    + split; [discriminate |]. split; [| discriminate].
      intros e0 [= <-]. apply Hfail. reflexivity.
Qed.

Lemma deal_outcome draws g w :
  deal cfg draws g w <> OutOfFuel /\
  (forall e, deal cfg draws g w = Failed e -> exists e', e = Participant e') /\
  (forall g' w', deal cfg draws g w = Done (g', w') ->
     players g' = players g /\ dealer g' = dealer g /\
     forall x, x ∈ players g -> is_Some (objs w' !! x)).
Proof.
  unfold deal, mbind, run_bind.
  destruct (for_each_hit_at_outcome draws (players g) g w) as (N1 & F1 & D1).
  destruct (for_each (hit_at cfg draws) (players g) g w) as [[g1 w1]| e |];
    [| split; [discriminate | split; [intros e0 [= <-]; auto | discriminate]] | contradiction].
  cbn [fst snd]. destruct (D1 g1 w1 eq_refl) as (P1 & E1 & _ & _).
  destruct (hit_at_outcome draws (dealer g1) g1 w1) as (N2 & F2 & D2).
  destruct (hit_at cfg draws (dealer g1) g1 w1) as [[g2 w2]| e |];
    [| split; [discriminate | split; [intros e0 [= <-]; auto | discriminate]] | contradiction].
  cbn [fst snd]. destruct (D2 g2 w2 eq_refl) as (P2 & E2 & _ & _).
  destruct (for_each_hit_at_outcome draws (players g2) g2 w2) as (N3 & F3 & D3).
  split; [exact N3 |]. split; [exact F3 |].
  intros g' w' H3. destruct (D3 g' w' H3) as (P3 & E3 & Hin & _).
  repeat split; try congruence.
  intros x Hx. apply Hin. rewrite P2, P1. exact Hx.
Qed.

(** X18. With at least one player [play] never returns: when the three
    rounds of the deal go through, the call of the first player's
    [play_strategy] fails on the name [dealer], which nothing binds;
    otherwise the deal has failed with the exception of one of its draws.
    No strategy is played and no round is settled. *)
Theorem play_with_players_never_returns fuel draws g w :
  players g <> [] ->
  (exists gw, deal cfg draws g w = Done gw /\
     play cfg fuel draws g w = Failed (NameError "dealer")) \/
  (exists e, deal cfg draws g w = Failed (Participant e) /\
     play cfg fuel draws g w = Failed (Participant e)).
Proof.
  intros Hne. unfold play, mbind at 1, run_bind.
  destruct (deal_outcome draws g w) as (Hnt & Hfail & Hdone).
  destruct (deal cfg draws g w) as [[g1 w1]| e |]; [| | contradiction].
  - left. exists (g1, w1). split; [reflexivity |].
    destruct (Hdone g1 w1 eq_refl) as (Hp & _ & Hin). cbn [fst snd].
    rewrite Hp. destruct (players g) as [|x ps]; [contradiction |].
    cbn [for_each]. unfold strategy_at.
    destruct (Hin x ltac:(left)) as [p ->]. reflexivity.
  - right. destruct (Hfail e eq_refl) as [e' ->]. eauto.
Qed.

Lemma for_each_nil body g w : for_each body [] g w = Done (g, w).
Proof. reflexivity. Qed.

(** X19. With no player [play] gives the dealer one card and lets the
    dealer play its strategy with the default column.  When it returns,
    the dealer holds at least one card more, the returned deck has lost
    exactly the cards the dealer got, the list of counts the game started
    with is as it was, and the dealer's hand is bust, or inactive after a
    double, or one on which its table says to stand. *)
Theorem play_without_players fuel draws g w g' w' :
  players g = [] ->
  play cfg fuel draws g w = Done (g', w') ->
  exists d d' nums nums' card dealt,
    objs w !! dealer g = Some d /\ objs w' !! dealer g = Some d' /\
    cards d' = cards d ++ card :: dealt /\
    lists w !! num_cards g = Some nums /\
    lists w' !! num_cards g = Some nums /\
    lists w' !! num_cards g' = Some nums' /\
    py_sum nums' = py_sum nums - Z.of_nat (S (length dealt)) /\
    drawn w' = (drawn w + S (length dealt))%nat /\
    players g' = [] /\ dealer g' = dealer g /\
    (bust d' = true \/ active d' = false \/ lookup_action d' None = Ret "S"%string).
Proof.
  intros Hp. unfold play, deal. rewrite Hp, for_each_nil.
  unfold mbind, run_bind. cbn [fst snd].
  unfold hit_at at 1.
  destruct (objs w !! dealer g) as [d|] eqn:Hd; [| discriminate].
  destruct (hit cfg d (num_cards g) (count g) false (draws (drawn w)) (lists w))
    as [[[d1 [l1 c1]]| |] h1] eqn:Hhit; [| discriminate..].
  unfold with_deck. cbn [fst snd players dealer num_cards count].
  rewrite Hp, !for_each_nil. cbn [fst snd].
  unfold dealer_plays. cbn [players dealer num_cards count objs lists drawn].
  rewrite lookup_insert_eq.
  destruct (play_strategy cfg fuel _ d1 l1 c1 None h1)
    as [[[d2 [l2 c2]]| |] h2] eqn:Hplay; [| discriminate..].
  unfold with_deck. cbn [fst snd players dealer num_cards count].
  rewrite for_each_nil.
  intros [= <- <-]. cbn.
  destruct (hit_ret_inv _ _ _ _ _ _ _ _ _ _ _ Hhit)
    as (nums & c & card & v & wt & Hl & Hc & _ & _ & _ & -> & _ & -> &
        _ & _ & _ & _ & Hcards & _).
  destruct (play_strategy_ret _ _ _ _ _ _ _ _ _ _ _ _ Hplay)
    as ((nums1 & nums2 & dealt & Hl1 & Hl2 & _ & Hcards2 & Hsum) & _ & Hend & _).
  destruct (play_strategy_frame cfg _ _ _ _ _ _ _ _ _ Hplay) as [Hfr _].
  rewrite lookup_insert_eq in Hl1. injection Hl1 as <-.
  rewrite (py_sum_insert nums _ c) in Hsum by exact Hc.
  exists d, d2, nums, nums2, card, dealt.
  rewrite insert_insert_eq, lookup_insert_eq.
  assert (Hc2 : cards d2 = cards d ++ card :: dealt).
  { rewrite Hcards2, Hcards, <- app_assoc. reflexivity. }
  repeat split; auto.
  - apply Hfr. rewrite lookup_insert_ne; [exact Hl |].
    intros E. pose proof (is_fresh (dom (lists w))) as Hf.
    rewrite E in Hf. apply Hf, elem_of_dom. eauto.
  - lia.
  - rewrite Hc2, Hcards, !length_app. cbn. lia.
Qed.

End GameMore.

(** ** The further properties on the sample shoe *)

Section SamplesMore.

(** The hands dealt from the sample shoe are states a participant goes
    through. *)
Lemma hand_of_reachable pt b ix q :
  hand_of pt b ix = Ret q -> reachable sample_settings q.
Proof.
  unfold hand_of.
  generalize (reach_set_bet sample_settings (init pt) (Some b) (reach_init _ pt)).
  generalize (set_bet sample_settings (init pt) (Some b)), 1%positive, 0, sample_heap.
  induction ix as [|i ix IH]; intros s l c h Hs; cbn [deal].
  - intros [= <-]. exact Hs.
  - unfold mbind at 1, M_bind.
    destruct (hit sample_settings s l c false i h) as [[[s1 [l1 c1]]| |] h1] eqn:Hhit;
      try discriminate.
    apply IH. eapply reach_hit; eauto.
Defined.


Lemma result_fails_only_by_overflow_sample :
  exists s, result (sample_hand "p" ["A"; "K"] [11; 21] 21 (PInt 10))
                   (sample_hand "d" ["A"; "10"] [11; 21] 21 (PInt 0)) = Ret s.
Proof.
  apply (proj2 (proj2 (result_fails_only_by_overflow
                         (sample_hand "p" ["A"; "K"] [11; 21] 21 (PInt 10))
                         (sample_hand "d" ["A"; "10"] [11; 21] 21 (PInt 0))))).
  reflexivity.
Defined.

Lemma result_decided_by_values_when_different_sample :
  runW <$> result (sample_hand "p" ["A"; "K"] [11; 21] 21 (PInt 10))
                  (sample_hand "d" ["10"; "9"] [19] 19 (PInt 0))
    = Ret [PInt 10].
Proof.
  apply (result_decided_by_values_when_different
           (sample_hand "p" ["A"; "K"] [11; 21] 21 (PInt 10))
           (sample_hand "d" ["10"; "9"] [19] 19 (PInt 0))).
  discriminate.
Defined.


Lemma bust_hand_stays_bust_sample :
  match hit sample_settings (sample_hand "p" ["10"; "K"; "5"] [] 0 (PInt 10))
          1%positive 0 false 9 sample_heap with
  | (Ret (s', (l', _)), h') =>
      possible s' = [] /\ bust s' = true /\ value s' = 0 /\
      length (cards s') = 4%nat /\
      exists nums nums',
        sample_heap !! 1%positive = Some nums /\ h' !! l' = Some nums' /\
        py_sum nums' = py_sum nums - 1
  | _ => False
  end.
Proof.
  destruct (hit sample_settings (sample_hand "p" ["10"; "K"; "5"] [] 0 (PInt 10))
              1%positive 0 false 9 sample_heap)
    as [[[s' [l' c']]| |] h'] eqn:Hhit; [| vm_compute in Hhit; discriminate..].
  apply (bust_hand_stays_bust sample_settings
           (sample_hand "p" ["10"; "K"; "5"] [] 0 (PInt 10))
           1%positive 0 false 9%nat sample_heap s' l' c' h' eq_refl Hhit).
Defined.

Lemma double_is_hit_with_doubled_bet_sample :
  match hit sample_settings sample_player 1%positive 0 false 9 sample_heap with
  | (Ret (s1, r), h1) =>
      exists b2,
        num_mul (bet sample_player) (PInt 2) = Ret b2 /\
        (forall b, bet sample_player = PInt b -> b2 = PInt (b * 2)) /\
        hit sample_settings sample_player 1%positive 0 true 9 sample_heap
          = (Ret (doubled s1 b2, r), h1)
  | _ => False
  end.
Proof.
  destruct (hit sample_settings sample_player 1%positive 0 false 9 sample_heap)
    as [[[s1 r]| |] h1] eqn:Hhit; [| vm_compute in Hhit; discriminate..].
  apply (double_is_hit_with_doubled_bet sample_settings _ _ _ _ _ _ _ _ Hhit).
Defined.

Lemma both_bust_settlement_sample :
  match hand_of "p" (PInt 10) [9; 12; 4]%nat, hand_of "d" (PInt 0) [9; 5; 11]%nat with
  | Ret p, Ret d => bust p = true /\ bust d = true /\
                    runW <$> result p d = Ret [PInt (-10)]
  | _, _ => False
  end.
Proof.
  destruct (hand_of "p" (PInt 10) [9; 12; 4]%nat) as [p| |] eqn:Hp;
    [| vm_compute in Hp; discriminate..].
  destruct (hand_of "d" (PInt 0) [9; 5; 11]%nat) as [d| |] eqn:Hd;
    [| vm_compute in Hd; discriminate..].
  assert (Ep : p = {| ptype := "p"; soft_strategy := None; hard_strategy := None;
                      cards := ["10"; "K"; "5"]; possible := []; value := 0;
                      bet := PInt 10; active := true; bust := true;
                      runV := []; runW := [] |})
    by (vm_compute in Hp; congruence).
  assert (Ed : d = {| ptype := "d"; soft_strategy := None; hard_strategy := None;
                      cards := ["10"; "6"; "Q"]; possible := []; value := 0;
                      bet := PInt 0; active := true; bust := true;
                      runV := []; runW := [] |})
    by (vm_compute in Hd; congruence).
  split; [rewrite Ep; reflexivity |]. split; [rewrite Ed; reflexivity |].
  rewrite (both_bust_settlement sample_settings p d (hand_of_reachable _ _ _ _ Hp) (hand_of_reachable _ _ _ _ Hd)
             ltac:(rewrite Ep; reflexivity) ltac:(rewrite Ed; reflexivity)).
  rewrite Ep. reflexivity.
Defined.

(** The sample player draws two tens and stands on 20. *)
Lemma play_strategy_draws_what_it_adds_sample :
  match play_strategy sample_settings 25 (fun _ => 9%nat) sample_player 1%positive 0 None
          sample_heap with
  | (Ret (s', (l', _)), h') =>
      exists nums nums' drawn,
        sample_heap !! 1%positive = Some nums /\ h' !! l' = Some nums' /\
        length nums' = length nums /\
        cards s' = cards sample_player ++ drawn /\
        py_sum nums' = py_sum nums - Z.of_nat (length drawn)
  | _ => False
  end.
Proof.
  destruct (play_strategy sample_settings 25 (fun _ => 9%nat) sample_player 1%positive 0 None
              sample_heap)
    as [[[s' [l' c']]| |] h'] eqn:Hplay; [| vm_compute in Hplay; discriminate..].
  apply (proj1 (play_strategy_draws_what_it_adds sample_settings _ _ _ _ _ _ _ _ _ _ _ Hplay)).
Defined.

Lemma play_strategy_ends_bust_doubled_or_standing_sample :
  match play_strategy sample_settings 25 (fun _ => 9%nat) sample_player 1%positive 0 None
          sample_heap with
  | (Ret (s', _), _) =>
      bust s' = true \/ active s' = false \/ lookup_action s' None = Ret "S"%string
  | _ => False
  end.
Proof.
  destruct (play_strategy sample_settings 25 (fun _ => 9%nat) sample_player 1%positive 0 None
              sample_heap)
    as [[[s' r]| |] h'] eqn:Hplay; [| vm_compute in Hplay; discriminate..].
  apply (play_strategy_ends_bust_doubled_or_standing sample_settings _ _ _ _ _ _ _ _ _ _ Hplay).
Defined.

Lemma play_strategy_doubles_at_most_once_sample :
  match play_strategy sample_settings 25 (fun _ => 9%nat) sample_player 1%positive 0 None
          sample_heap with
  | (Ret (s', _), _) =>
      (bet s' = bet sample_player /\ active s' = active sample_player) \/
      (active s' = false /\ num_mul (bet sample_player) (PInt 2) = Ret (bet s'))
  | _ => False
  end.
Proof.
  destruct (play_strategy sample_settings 25 (fun _ => 9%nat) sample_player 1%positive 0 None
              sample_heap)
    as [[[s' r]| |] h'] eqn:Hplay; [| vm_compute in Hplay; discriminate..].
  apply (play_strategy_doubles_at_most_once sample_settings _ _ _ _ _ _ _ _ _ _ Hplay).
Defined.

(** A player that has doubled is returned as it is, even without fuel. *)
Lemma play_strategy_on_finished_hand_sample :
  play_strategy sample_settings 0 (fun _ => 9%nat) (doubled sample_player (PInt 20))
    1%positive 0 None sample_heap
  = (Ret (doubled sample_player (PInt 20), (fresh (dom sample_heap), 0)),
     <[fresh (dom sample_heap) := sample_deck]> sample_heap).
Proof.
  apply (play_strategy_on_finished_hand sample_settings 0 (fun _ => 9%nat)
           (doubled sample_player (PInt 20)) 1%positive 0 None sample_heap sample_deck).
  - reflexivity.
  - right. reflexivity.
Defined.

(** A participant with no strategy set. *)
Lemma play_strategy_lookup_failure_sample :
  (play_strategy sample_settings 1 (fun _ => 9%nat) (init "p") 1%positive 0 None
     sample_heap).1 = Raise AttributeError.
Proof.
  apply (proj1 (play_strategy_lookup_failure sample_settings 0 (fun _ => 9%nat) (init "p")
                  1%positive 0 None sample_heap sample_deck eq_refl eq_refl eq_refl)).
  reflexivity.
Defined.

Lemma play_strategy_spins_on_unknown_action_sample :
  play_strategy sample_settings 1000 (fun _ => 9%nat)
    (with_strategy (init "p") broken_table broken_table) 1%positive 0 None sample_heap
  = (Timeout, <[fresh (dom sample_heap) := sample_deck]> sample_heap).
Proof.
  apply (play_strategy_spins_on_unknown_action sample_settings 1000 (fun _ => 9%nat)
           (with_strategy (init "p") broken_table broken_table) 1%positive 0 None
           sample_heap sample_deck "X"%string);
    try reflexivity; discriminate.
Defined.

(** A running count of -3 over the 100-card deck. *)
Lemma set_bet_counting_sits_out_sample :
  set_bet_counting sample_settings sample_player (-3) sample_deck_100
  = Ret (with_bet sample_player (PInt 0)).
Proof.
  apply (proj2 (set_bet_counting_sits_out sample_settings sample_player (-3) sample_deck_100
                  ltac:(discriminate) eq_refl eq_refl ltac:(discriminate) eq_refl));
    reflexivity.
Defined.



(** The sample game with the sample player added. *)
Lemma play_with_players_never_returns_sample :
  Blackjack.play sample_settings 25 (fun _ => 9%nat)
    (Blackjack.add_player sample_game [2%positive]) sample_world
  = Blackjack.Failed (Blackjack.NameError "dealer").
Proof.
  destruct (play_with_players_never_returns sample_settings 25 (fun _ => 9%nat)
              (Blackjack.add_player sample_game [2%positive]) sample_world
              ltac:(discriminate))
    as [(gw & _ & Hplay) | (e & Hdeal & _)]; [exact Hplay |].
  vm_compute in Hdeal. discriminate.
Defined.

Lemma play_without_players_sample :
  match Blackjack.play sample_settings 25 (fun _ => 9%nat) sample_game sample_world with
  | Blackjack.Done (g', w') =>
      exists d d' nums nums' card dealt,
        Blackjack.objs sample_world !! Blackjack.dealer sample_game = Some d /\
        Blackjack.objs w' !! Blackjack.dealer sample_game = Some d' /\
        cards d' = cards d ++ card :: dealt /\
        Blackjack.lists sample_world !! Blackjack.num_cards sample_game = Some nums /\
        Blackjack.lists w' !! Blackjack.num_cards sample_game = Some nums /\
        Blackjack.lists w' !! Blackjack.num_cards g' = Some nums' /\
        py_sum nums' = py_sum nums - Z.of_nat (S (length dealt)) /\
        Blackjack.drawn w' = (Blackjack.drawn sample_world + S (length dealt))%nat /\
        Blackjack.players g' = [] /\
        Blackjack.dealer g' = Blackjack.dealer sample_game /\
        (bust d' = true \/ active d' = false \/ lookup_action d' None = Ret "S"%string)
  | _ => False
  end.
Proof.
  destruct (Blackjack.play sample_settings 25 (fun _ => 9%nat) sample_game sample_world)
    as [[g' w']| e |] eqn:Hplay; [| vm_compute in Hplay; discriminate..].
  apply (play_without_players sample_settings 25 (fun _ => 9%nat) sample_game sample_world
           g' w' eq_refl Hplay).
Defined.

(** C7, counterexample.  With one card left and a running count of
    [2^1024] the first quotient is too large for a double:
    [set_bet_counting] raises and sets no bet.  With a minimum bet of 0
    and a running count of [10^308] the true count is infinite and the bet
    value, infinity times 0, a NaN: it is not at least the minimum bet,
    and the bet that is set is the NaN, not 0. *)
Lemma set_bet_counting_bet_not_by_comparison :
  (0 < py_sum sample_deck_1 /\
   set_bet_counting sample_settings (init "p") (2 ^ 1024) sample_deck_1
     = Raise OverflowError) /\
  (0 < py_sum sample_deck_1 /\
   true_count zero_bet_settings (10 ^ 308) sample_deck_1 = Ret (PFloat (S754_infinity false)) /\
   bet_value zero_bet_settings (10 ^ 308) sample_deck_1 = Ret (PFloat S754_nan) /\
   policy zero_bet_settings (10 ^ 308) (py_sum sample_deck_1) = Ret (PFloat S754_nan) /\
   num_geb (PFloat S754_nan) (PInt (MIN_BET zero_bet_settings)) = false /\
   set_bet_counting zero_bet_settings (init "p") (10 ^ 308) sample_deck_1
     = Ret (with_bet (init "p") (PFloat S754_nan)) /\
   bet (with_bet (init "p") (PFloat S754_nan)) <> PInt 0).
Proof.
  split; [split | repeat split]; try (vm_compute; reflexivity).
  discriminate.
Qed.

(** The bet for a running count of 8 over 100 cards: a true count of
    54.08 and a bet of 530.8, above the minimum bet of 10. *)
Lemma set_bet_counting_sets_policy_bet_sample :
  (exists self',
     set_bet_counting sample_settings (init "p") 8 sample_deck_100 = Ret self' /\
     self' = with_bet (init "p") (bet self') /\
     bet self' = PFloat f530_8 /\
     num_geb (PFloat f530_8) (PInt (MIN_BET sample_settings)) = true) /\
  true_count sample_settings 8 sample_deck_100 = Ret (PFloat f54_08) /\
  trueCount 8 100 52 13 = Ret (PFloat f54_08) /\
  int_truediv 5408 100 = Ret f54_08.
Proof.
  destruct (set_bet_counting_sets_policy_bet sample_settings (init "p") 8 sample_deck_100
              eq_refl) as (_ & H & _ & Hex).
  split; [| apply Hex; reflexivity].
  assert (E : policy sample_settings 8 (py_sum sample_deck_100) = Ret (PFloat f530_8))
    by (vm_compute; reflexivity).
  rewrite E in H. destruct H as (self' & H1 & H2 & _ & _ & H5).
  exists self'. split; [exact H1 |]. split; [exact H2 |].
  destruct H5 as [_ H5]; [discriminate | discriminate |].
  split; [rewrite H5 |]; vm_compute; reflexivity.
Defined.

End SamplesMore.
